(** * I-DT fixation detection on 3D gaze data ([src/fixation3d.py])

    A shallow embedding of [is_fixation_idt] and [extract_fixations] and the
    properties of the streaming segmentation loop.

    Numbers.  The gaze data are binary64 columns.  A finite binary64 number
    is the rational it stands for ([Q]); there is no NaN and no infinity.
    Comparisons of such numbers are exact.  The two places where binary64
    rounds are kept apart:
    - the subtraction [max - min] of the dispersion test is exact in
      [is_fixation_idt], which the loop uses, and rounded by a parameter in
      [is_fixation_idt_rounded]; [is_fixation_idt_f64] is the test on
      binary64 numbers themselves;
    - [np.mean] is a parameter of the loop.
    [min_points_per_fixation] is a Python int ([Z]), so that the slice
    [lst[-n:]] keeps its meaning for every sign of [n].

    Errors.  Python exceptions are values of [exn]; a computation that may
    raise returns a [result]. *)

From Stdlib Require Import String List ZArith QArith Qminmax Qround Bool Lia Lqa
  Sorted.
From Stdlib Require PrimFloat FloatOps SpecFloat.
Import ListNotations.

Local Open Scope Q_scope.

(** ** Exceptions *)

Inductive exn : Type :=
| ValueError   (* max() / min() of an empty sequence *)
| IndexError.  (* pop from, or index into, an empty list *)

Inductive result (A : Type) : Type :=
| Ok (a : A)
| Raise (e : exn).

Arguments Ok {A} a.
Arguments Raise {A} e.

Definition bind {A B : Type} (m : result A) (k : A -> result B) : result B :=
  match m with
  | Ok a => k a
  | Raise e => Raise e
  end.

Notation "x <- m ;; k" := (bind m (fun x => k))
  (at level 61, m at next level, right associativity).
Notation "' p <- m ;; k" := (bind m (fun x => match x with p => k end))
  (at level 61, p pattern, m at next level, right associativity).

(** ** Python and numpy primitives *)

(** [a < b] on floats. *)
Definition Qltb (a b : Q) : bool := negb (Qle_bool b a).

(** [max(l)]: the first element, replaced by each later one that compares
    strictly greater; [ValueError] on an empty list. *)
Definition py_max (l : list Q) : result Q :=
  match l with
  | [] => Raise ValueError
  | x :: r => Ok (fold_left (fun m y => if Qltb m y then y else m) r x)
  end.

(** [min(l)]: dually, with strictly smaller. *)
Definition py_min (l : list Q) : result Q :=
  match l with
  | [] => Raise ValueError
  | x :: r => Ok (fold_left (fun m y => if Qltb y m then y else m) r x)
  end.

(** [l[start:]] for a Python int [start]: a negative [start] counts from the
    end, and both ends clamp. *)
Definition py_slice_from {A : Type} (start : Z) (l : list A) : list A :=
  let len := Z.of_nat (length l) in
  let i := if (start <? 0)%Z then Z.max (len + start) 0 else Z.min start len in
  skipn (Z.to_nat i) l.

(** [l.pop()]: the list without its last element, and that element. *)
Definition py_pop {A : Type} (l : list A) : result (list A * A) :=
  match rev l with
  | [] => Raise IndexError
  | x :: r => Ok (rev r, x)
  end.

(** [l[0]]. *)
Definition py_first {A : Type} (l : list A) : result A :=
  match l with
  | [] => Raise IndexError
  | x :: _ => Ok x
  end.

(** [l[-1]]. *)
Definition py_last {A : Type} (l : list A) : result A :=
  match rev l with
  | [] => Raise IndexError
  | x :: _ => Ok x
  end.

Definition Qsum (l : list Q) : Q := fold_left Qplus l 0.

(** The arithmetic mean, without rounding: the sum divided by the count
    ([0 / 0], which [Q] reads as [0], on an empty list).  It is the mean
    function used to run the examples. *)
Definition exact_mean (l : list Q) : Q :=
  Qsum l / inject_Z (Z.of_nat (length l)).

(** [np.array(rows)[:, k]]: column [k] of the list of origin rows.  An empty
    list gives a one-dimensional array, and the two-index access raises. *)
Definition np_column (k : Q * Q * Q -> Q) (rows : list (Q * Q * Q))
  : result (list Q) :=
  match rows with
  | [] => Raise IndexError
  | _ => Ok (map k rows)
  end.

Definition col0 (o : Q * Q * Q) : Q := fst (fst o).
Definition col1 (o : Q * Q * Q) : Q := snd (fst o).
Definition col2 (o : Q * Q * Q) : Q := snd o.

(** ** Data *)

(** One row of the input frame. *)
Record Sample : Type := mkSample {
  timestamp : Q;
  direction_x : Q;
  direction_y : Q;
  direction_z : Q;
  origin_x : Q;
  origin_y : Q;
  origin_z : Q
}.

(** [gaze_origin[i]]: a row of [data[["origin_x", "origin_y", "origin_z"]]]. *)
Definition gaze_origin (s : Sample) : Q * Q * Q :=
  (origin_x s, origin_y s, origin_z s).

(** The dict of parallel lists used for both the queue and the fixation
    (keys "timestamps", "X", "Y", "Z", "origin"). *)
Record GazeBuf : Type := mkBuf {
  timestamps : list Q;
  X_ : list Q;
  Y_ : list Q;
  Z_ : list Q;
  origin : list (Q * Q * Q)
}.

Definition empty_buf : GazeBuf := mkBuf [] [] [] [] [].

(** One row of the output frame. *)
Module Fix.
Record t : Type := mk {
  start : Q;
  end_ : Q;
  x : Q;
  y : Q;
  z : Q;
  origin_x : Q;
  origin_y : Q;
  origin_z : Q
}.
End Fix.

Record DataFrame : Type := mkFrame {
  columns : list string;
  rows : list Fix.t
}.

(** ** [is_fixation_idt] *)

(** The test with its subtraction taken as exact; the loop uses this one.
    What holds of it and is stated of the code below does not depend on
    the rounding of [max - min]. *)
Definition is_fixation_idt (gaze_points : GazeBuf) (fixation_size : Q)
  : result bool :=
  let X := X_ gaze_points in
  let Y := Y_ gaze_points in
  let Z := Z_ gaze_points in
  maxX <- py_max X ;; minX <- py_min X ;;
  maxY <- py_max Y ;; minY <- py_min Y ;;
  maxZ <- py_max Z ;; minZ <- py_min Z ;;
  m <- py_max [maxX - minX; maxY - minY; maxZ - minZ] ;;
  Ok (Qltb m fixation_size).

(** The same test with the rounding of the subtraction made explicit: in
    binary64 [max(X) - min(X)] is the exact difference rounded, [rnd] of it.
    [is_fixation_idt] is this test with no rounding. *)
Definition is_fixation_idt_rounded (rnd : Q -> Q) (gaze_points : GazeBuf)
           (fixation_size : Q) : result bool :=
  let X := X_ gaze_points in
  let Y := Y_ gaze_points in
  let Z := Z_ gaze_points in
  maxX <- py_max X ;; minX <- py_min X ;;
  maxY <- py_max Y ;; minY <- py_min Y ;;
  maxZ <- py_max Z ;; minZ <- py_min Z ;;
  m <- py_max [rnd (maxX - minX); rnd (maxY - minY); rnd (maxZ - minZ)] ;;
  Ok (Qltb m fixation_size).

(** A rounding to run examples with: to the nearest multiple of [1 / k],
    halves upwards.  (Binary64 rounds to the nearest number of 53
    significant bits; like this one, it is monotone and leaves the numbers
    it can represent as they are.) *)
Definition round_to_grid (k : positive) (q : Q) : Q :=
  inject_Z (Qfloor (q * inject_Z (Z.pos k) + (1 # 2))) / inject_Z (Z.pos k).

(** ** Binary64

    The dispersion test and [np.mean] on binary64 numbers themselves
    (Rocq's primitive floats), to evaluate them on concrete inputs. *)


Definition py_max_f64 (l : list PrimFloat.float) : result PrimFloat.float :=
  match l with
  | [] => Raise ValueError
  | x :: r =>
      Ok (fold_left (fun m y => if PrimFloat.ltb m y then y else m) r x)
  end.

Definition py_min_f64 (l : list PrimFloat.float) : result PrimFloat.float :=
  match l with
  | [] => Raise ValueError
  | x :: r =>
      Ok (fold_left (fun m y => if PrimFloat.ltb y m then y else m) r x)
  end.

(** The three lists [is_fixation_idt] reads from its argument. *)
Record Axes64 : Type := mkAxes64 {
  X64 : list PrimFloat.float;
  Y64 : list PrimFloat.float;
  Z64 : list PrimFloat.float
}.

Definition is_fixation_idt_f64 (gaze_points : Axes64)
           (fixation_size : PrimFloat.float) : result bool :=
  let X := X64 gaze_points in
  let Y := Y64 gaze_points in
  let Z := Z64 gaze_points in
  maxX <- py_max_f64 X ;; minX <- py_min_f64 X ;;
  maxY <- py_max_f64 Y ;; minY <- py_min_f64 Y ;;
  maxZ <- py_max_f64 Z ;; minZ <- py_min_f64 Z ;;
  m <- py_max_f64 [PrimFloat.sub maxX minX; PrimFloat.sub maxY minY;
                   PrimFloat.sub maxZ minZ] ;;
  Ok (PrimFloat.ltb m fixation_size).


Section Binary64Numbers.

Import PrimFloat.

Definition f64_0047 : PrimFloat.float := (0x1.810624dd2f1aap-5)%float.


End Binary64Numbers.

(** ** [np.mean]

    [np.mean] is numpy's, not this repository's, and it works in binary64:
    its result is the arithmetic mean up to rounding, which a rational
    quotient does not give.  It is taken as a parameter, a function of the
    list of values it is called on; nothing below depends on what it
    computes.  (On an empty list numpy answers nan with a warning, not an
    exception; the loop never gets there, [fixation["timestamps"][0]]
    raises first.) *)

Section Model.

Variable np_mean : list Q -> Q.

(** ** [extract_fixations] *)

(** The five [append] calls that add row [i] of the input to a buffer. *)
Definition append_sample (b : GazeBuf) (s : Sample) : GazeBuf :=
  mkBuf (timestamps b ++ [timestamp s])
        (X_ b ++ [direction_x s])
        (Y_ b ++ [direction_y s])
        (Z_ b ++ [direction_z s])
        (origin b ++ [gaze_origin s]).

(** [for key in q.keys(): q[key] = q[key][-min_points_per_fixation:]]. *)
Definition keep_newest (min_points_per_fixation : Z) (q : GazeBuf) : GazeBuf :=
  let start := (- min_points_per_fixation)%Z in
  mkBuf (py_slice_from start (timestamps q))
        (py_slice_from start (X_ q))
        (py_slice_from start (Y_ q))
        (py_slice_from start (Z_ q))
        (py_slice_from start (origin q)).

(** [for key in fixation.keys(): fresh[key].append(fixation[key].pop())],
    [fresh] being the new empty queue: the fixation without its last
    entries, and the queue made of them. *)
Definition pop_outlier (fixation : GazeBuf) : result (GazeBuf * GazeBuf) :=
  '(ts, t) <- py_pop (timestamps fixation) ;;
  '(xs, x) <- py_pop (X_ fixation) ;;
  '(ys, y) <- py_pop (Y_ fixation) ;;
  '(zs, z) <- py_pop (Z_ fixation) ;;
  '(os, o) <- py_pop (origin fixation) ;;
  Ok (mkBuf ts xs ys zs os, mkBuf [t] [x] [y] [z] [o]).

(** The "save fixation" block: the row appended to [fixations]. *)
Definition save_fixation (fixation : GazeBuf) : result Fix.t :=
  start_timestamp <- py_first (timestamps fixation) ;;
  end_timestamp <- py_last (timestamps fixation) ;;
  let x := np_mean (X_ fixation) in
  let y := np_mean (Y_ fixation) in
  let z := np_mean (Z_ fixation) in
  o0 <- np_column col0 (origin fixation) ;;
  let origin_x := np_mean o0 in
  o1 <- np_column col1 (origin fixation) ;;
  let origin_y := np_mean o1 in
  o2 <- np_column col2 (origin fixation) ;;
  let origin_z := np_mean o2 in
  Ok (Fix.mk start_timestamp end_timestamp x y z origin_x origin_y origin_z).

(** The local variables of [extract_fixations] that live across
    iterations. *)
Record State : Type := mkState {
  gaze_points_queue : GazeBuf;
  fixation : GazeBuf;
  fixations : list Fix.t;
  processing_fixation : bool
}.

Definition init_state : State := mkState empty_buf empty_buf [] false.

Section Loop.

Variable min_points_per_fixation : Z.
Variables min_fixation_size max_fixation_size : Q.

(** One iteration of the [for] loop, on row [s] of the input.

    When a fixation starts, [fixation[key] = gaze_points_queue[key]] makes
    the two dicts share their lists, and the queue is not rebound until the
    fixation ends: while [processing_fixation] holds, what is appended to
    the fixation shows through [gaze_points_queue] as well. *)
Definition loop_body (st : State) (s : Sample) : result State :=
  if negb (processing_fixation st) then
    let q := append_sample (gaze_points_queue st) s in
    if (Z.of_nat (length (timestamps q)) >=? min_points_per_fixation)%Z then
      let q := keep_newest min_points_per_fixation q in
      b <- is_fixation_idt q min_fixation_size ;;
      if b then Ok (mkState q q (fixations st) true)
      else Ok (mkState q (fixation st) (fixations st) false)
    else Ok (mkState q (fixation st) (fixations st) false)
  else
    let f := append_sample (fixation st) s in
    b <- is_fixation_idt f max_fixation_size ;;
    if negb b then
      '(f, q) <- pop_outlier f ;;
      row <- save_fixation f ;;
      Ok (mkState q empty_buf (fixations st ++ [row]) false)
    else Ok (mkState f f (fixations st) true).

(** [for i in range(len(timestamps))]: the columns come from one frame, so
    the loop visits its rows in order. *)
Fixpoint loop (st : State) (data : list Sample) : result State :=
  match data with
  | [] => Ok st
  | s :: rest => st' <- loop_body st s ;; loop st' rest
  end.

Definition extract_fixations (data : list Sample) : result DataFrame :=
  st <- loop init_state data ;;
  Ok (mkFrame ["start"; "end"; "x"; "y"; "z";
               "origin_x"; "origin_y"; "origin_z"]%string
              (fixations st)).

End Loop.

(** The default parameters of [extract_fixations]. *)
Definition default_min_points_per_fixation : Z := 2.
Definition default_min_fixation_size : Q := 47 # 1000.
Definition default_max_fixation_size : Q := 95 # 1000.

(** ** Windows of samples

    The loop keeps five parallel lists; the statements below speak of the
    window of input rows they come from. *)

(** The buffer holding exactly the rows [w], in order. *)
Definition buf_of (w : list Sample) : GazeBuf :=
  mkBuf (map timestamp w) (map direction_x w) (map direction_y w)
        (map direction_z w) (map gaze_origin w).

(** [w] is the tail end of [pre]: the most recent rows read. *)
Definition newest_of (w pre : list Sample) : Prop :=
  exists older, pre = older ++ w.

(** The two kinds of state of the segmenter, over windows of rows: a queue
    of rows and no fixation, or a fixation (whose lists the queue shares). *)
Definition accumulating (q : list Sample) (rows : list Fix.t) : State :=
  mkState (buf_of q) empty_buf rows false.

Definition fixating (w : list Sample) (rows : list Fix.t) : State :=
  mkState (buf_of w) (buf_of w) rows true.

(** What a reachable state looks like after the rows [pre]: a queue of the
    newest rows, at most [n] of them when [n] is a valid count, or a
    non-empty fixation of at least [n] of the newest rows. *)
Inductive shape (n : Z) (pre : list Sample) (st : State) : Prop :=
| Accumulating (q : list Sample) :
    st = accumulating q (fixations st) ->
    newest_of q pre ->
    ((1 <= n)%Z -> (Z.of_nat (length q) <= n)%Z) ->
    shape n pre st
| FixatingActive (first : Sample) (others : list Sample) :
    st = fixating (first :: others) (fixations st) ->
    newest_of (first :: others) pre ->
    (n <= Z.of_nat (length (first :: others)))%Z ->
    shape n pre st.

(** The dispersion extent in the words of the specification: the largest of
    the three per-axis ranges, each the greatest value minus the least. *)
Definition greatest (l : list Q) : Q :=
  match l with
  | [] => 0
  | a :: r => fold_right Qmax a r
  end.

Definition least (l : list Q) : Q :=
  match l with
  | [] => 0
  | a :: r => fold_right Qmin a r
  end.

Definition axis_range (l : list Q) : Q := greatest l - least l.

Definition extent (w : GazeBuf) : Q :=
  greatest [axis_range (X_ w); axis_range (Y_ w); axis_range (Z_ w)].

(** The row that summarises the window [first :: others]: its first and
    last timestamps and [np.mean] of each direction and origin component
    over all of its rows. *)
Definition summary (first : Sample) (others : list Sample) : Fix.t :=
  let w := first :: others in
  Fix.mk (timestamp first) (timestamp (last w first))
         (np_mean (map direction_x w))
         (np_mean (map direction_y w))
         (np_mean (map direction_z w))
         (np_mean (map origin_x w))
         (np_mean (map origin_y w))
         (np_mean (map origin_z w)).

(** The five ways one iteration can go, on row [s] read after the rows
    [pre]. *)
Inductive step_case (n : Z) (minS maxS : Q) (pre : list Sample) (st : State)
          (s : Sample) : State -> Prop :=
| step_fill (q : list Sample) :
    st = accumulating q (fixations st) ->
    newest_of q pre ->
    (Z.of_nat (length (q ++ [s])) < n)%Z ->
    step_case n minS maxS pre st s (accumulating (q ++ [s]) (fixations st))
| step_reject (q : list Sample) :
    st = accumulating q (fixations st) ->
    newest_of q pre ->
    (n <= Z.of_nat (length (q ++ [s])))%Z ->
    is_fixation_idt (buf_of (py_slice_from (- n) (q ++ [s]))) minS
      = Ok false ->
    step_case n minS maxS pre st s
      (accumulating (py_slice_from (- n) (q ++ [s])) (fixations st))
| step_start (q : list Sample) :
    st = accumulating q (fixations st) ->
    newest_of q pre ->
    (n <= Z.of_nat (length (q ++ [s])))%Z ->
    is_fixation_idt (buf_of (py_slice_from (- n) (q ++ [s]))) minS
      = Ok true ->
    step_case n minS maxS pre st s
      (fixating (py_slice_from (- n) (q ++ [s])) (fixations st))
| step_grow (w : list Sample) :
    st = fixating w (fixations st) ->
    newest_of w pre ->
    (n <= Z.of_nat (length w))%Z ->
    is_fixation_idt (buf_of (w ++ [s])) maxS = Ok true ->
    step_case n minS maxS pre st s (fixating (w ++ [s]) (fixations st))
| step_end (first : Sample) (others : list Sample) :
    st = fixating (first :: others) (fixations st) ->
    newest_of (first :: others) pre ->
    (n <= Z.of_nat (length (first :: others)))%Z ->
    is_fixation_idt (buf_of ((first :: others) ++ [s])) maxS = Ok false ->
    step_case n minS maxS pre st s
      (accumulating [s] (fixations st ++ [summary first others])).

(** Timestamps in non-decreasing order. *)
Definition nondecreasing (ts : list Q) : Prop := Sorted Qle ts.

(** Output rows ordered by [end]. *)
Definition end_le (a b : Fix.t) : Prop := Fix.end_ a <= Fix.end_ b.

(** A row whose [start] does not exceed its [end], the latter being the
    timestamp of one of the rows [pre]. *)
Definition well_timed (pre : list Sample) (r : Fix.t) : Prop :=
  Fix.start r <= Fix.end_ r /\
  exists s, In s pre /\ Fix.end_ r = timestamp s.

(** A row that summarises a run of at least [n] consecutive rows of [data],
    the row after which made the test against [maxS] fail. *)
Definition summarises (n : Z) (maxS : Q) (data : list Sample) (r : Fix.t)
  : Prop :=
  exists before first others s after,
    data = before ++ (first :: others) ++ s :: after /\
    (n <= Z.of_nat (length (first :: others)))%Z /\
    is_fixation_idt (buf_of ((first :: others) ++ [s])) maxS = Ok false /\
    r = summary first others.

(** A row for examples: timestamp [t], direction [(d, d + 1, - d)] and a
    fixed origin. *)
Definition sample_at (t d : Q) : Sample := mkSample t d (d + 1) (- d) 1 2 3.

(** The frame returned for the output rows [rs]. *)
Definition frame_of (rs : list Fix.t) : DataFrame :=
  mkFrame ["start"; "end"; "x"; "y"; "z";
           "origin_x"; "origin_y"; "origin_z"]%string rs.

(** The five lists of a buffer have one length. *)
Definition in_sync (b : GazeBuf) : Prop :=
  length (X_ b) = length (timestamps b) /\
  length (Y_ b) = length (timestamps b) /\
  length (Z_ b) = length (timestamps b) /\
  length (origin b) = length (timestamps b).

(** Output rows that do not overlap: the earlier one ends before the later
    one starts. *)
Definition end_before_start (a b : Fix.t) : Prop := Fix.end_ a <= Fix.start b.

(** A row that summarises a run of consecutive rows of [data] whose extent
    is below [maxS]. *)
Definition bounded_run (maxS : Q) (data : list Sample) (r : Fix.t) : Prop :=
  exists before first others after,
    data = before ++ (first :: others) ++ after /\
    r = summary first others /\
    extent (buf_of (first :: others)) < maxS.

(** A row that summarises a run of consecutive rows of [data] whose first
    [n] rows lie within [minS]. *)
Definition seeded_run (n : Z) (minS : Q) (data : list Sample) (r : Fix.t)
  : Prop :=
  exists before first others after,
    data = before ++ (first :: others) ++ after /\
    r = summary first others /\
    extent (buf_of (firstn (Z.to_nat n) (first :: others))) < minS.

(** Two input rows with the same direction (timestamps and origins may
    differ), and two output rows with the same mean direction. *)
Definition same_direction (s s' : Sample) : Prop :=
  direction_x s = direction_x s' /\
  direction_y s = direction_y s' /\
  direction_z s = direction_z s'.

Definition same_mean_direction (r r' : Fix.t) : Prop :=
  Fix.x r = Fix.x r' /\ Fix.y r = Fix.y r' /\ Fix.z r = Fix.z r'.

(** Two states of the loop that differ only in the timestamps and origins
    of the rows they hold. *)
Inductive alike : State -> State -> Prop :=
| alike_accumulating (q q' : list Sample) (rs rs' : list Fix.t) :
    Forall2 same_direction q q' ->
    Forall2 same_mean_direction rs rs' ->
    alike (accumulating q rs) (accumulating q' rs')
| alike_fixating (f f' : Sample) (o o' : list Sample) (rs rs' : list Fix.t) :
    Forall2 same_direction (f :: o) (f' :: o') ->
    Forall2 same_mean_direction rs rs' ->
    alike (fixating (f :: o) rs) (fixating (f' :: o') rs').

(** Two runs end alike: both return, in like states, or both raise the same
    exception. *)
Definition alike_results (a b : result State) : Prop :=
  match a, b with
  | Ok st, Ok st' => alike st st'
  | Raise e, Raise e' => e = e'
  | _, _ => False
  end.

(** * Properties *)

(** ** The primitives *)

Lemma Qltb_lt (a b : Q) : Qltb a b = true <-> a < b.
Proof.
  unfold Qltb. rewrite negb_true_iff, <- not_true_iff_false, Qle_bool_iff.
  split; [apply Qnot_le_lt | apply Qlt_not_le].
Qed.

Lemma Qltb_ge (a b : Q) : Qltb a b = false <-> b <= a.
Proof.
  unfold Qltb. rewrite negb_false_iff. apply Qle_bool_iff.
Qed.

Lemma py_pop_snoc {A : Type} (l : list A) (a : A) :
  py_pop (l ++ [a]) = Ok (l, a).
Proof.
  unfold py_pop. rewrite rev_app_distr. simpl. now rewrite rev_involutive.
Qed.

Lemma py_last_snoc {A : Type} (l : list A) (a : A) :
  py_last (l ++ [a]) = Ok a.
Proof.
  unfold py_last. now rewrite rev_app_distr.
Qed.

Lemma py_last_cons {A : Type} (a : A) (l : list A) :
  py_last (a :: l) = Ok (last (a :: l) a).
Proof.
  destruct (@exists_last A (a :: l)) as (l' & b & E); [discriminate|].
  rewrite E, py_last_snoc. now rewrite last_last.
Qed.

Lemma py_slice_from_map {A B : Type} (f : A -> B) (k : Z) (l : list A) :
  py_slice_from k (map f l) = map f (py_slice_from k l).
Proof.
  unfold py_slice_from. rewrite length_map. apply skipn_map.
Qed.

(** With [1 <= n <= len(l)], [l[-n:]] is the last [n] elements. *)
Lemma py_slice_newest {A : Type} (n : Z) (l : list A) :
  (1 <= n <= Z.of_nat (length l))%Z ->
  exists older, l = older ++ py_slice_from (- n) l /\
                Z.of_nat (length (py_slice_from (- n) l)) = n.
Proof.
  intros Hn. unfold py_slice_from.
  replace (- n <? 0)%Z with true by (symmetry; apply Z.ltb_lt; lia).
  set (k := Z.to_nat (Z.max (Z.of_nat (length l) + - n) 0)).
  exists (firstn k l). split.
  - symmetry. apply firstn_skipn.
  - rewrite length_skipn. subst k. lia.
Qed.

Lemma buf_of_snoc (w : list Sample) (s : Sample) :
  append_sample (buf_of w) s = buf_of (w ++ [s]).
Proof.
  unfold append_sample, buf_of. simpl. now rewrite !map_app.
Qed.

Lemma keep_newest_buf_of (n : Z) (w : list Sample) :
  keep_newest n (buf_of w) = buf_of (py_slice_from (- n) w).
Proof.
  unfold keep_newest, buf_of. simpl. now rewrite !py_slice_from_map.
Qed.

Lemma pop_outlier_snoc (w : list Sample) (s : Sample) :
  pop_outlier (buf_of (w ++ [s])) = Ok (buf_of w, buf_of [s]).
Proof.
  unfold pop_outlier, buf_of. simpl. rewrite !map_app. simpl.
  now rewrite !py_pop_snoc.
Qed.

(** ** [max] and [min] *)

Lemma fold_max_spec (r : list Q) (a : Q) :
  let M := fold_left (fun m y => if Qltb m y then y else m) r a in
  (M = a \/ In M r) /\ a <= M /\ Forall (fun y => y <= M) r.
Proof.
  revert a. induction r as [|y r IH]; intros a; simpl.
  - repeat split; [now left | apply Qle_refl | constructor].
  - destruct (IH (if Qltb a y then y else a)) as (Hin & Hle & Hall).
    destruct (Qltb a y) eqn:E.
    + apply Qltb_lt in E. repeat split.
      * right. destruct Hin as [-> | Hin]; [now left | now right].
      * apply Qlt_le_weak in E. eapply Qle_trans; eassumption.
      * constructor; assumption.
    + apply Qltb_ge in E. repeat split.
      * destruct Hin as [-> | Hin]; [now left | right; now right].
      * assumption.
      * constructor; [eapply Qle_trans; eassumption | assumption].
Qed.

Lemma fold_min_spec (r : list Q) (a : Q) :
  let M := fold_left (fun m y => if Qltb y m then y else m) r a in
  (M = a \/ In M r) /\ M <= a /\ Forall (fun y => M <= y) r.
Proof.
  revert a. induction r as [|y r IH]; intros a; simpl.
  - repeat split; [now left | apply Qle_refl | constructor].
  - destruct (IH (if Qltb y a then y else a)) as (Hin & Hle & Hall).
    destruct (Qltb y a) eqn:E.
    + apply Qltb_lt in E. repeat split.
      * right. destruct Hin as [-> | Hin]; [now left | now right].
      * apply Qlt_le_weak in E. eapply Qle_trans; eassumption.
      * constructor; assumption.
    + apply Qltb_ge in E. repeat split.
      * destruct Hin as [-> | Hin]; [now left | right; now right].
      * assumption.
      * constructor; [eapply Qle_trans; eassumption | assumption].
Qed.

(** [max(l)] returns an element of [l] that no element exceeds. *)
Lemma py_max_spec (l : list Q) :
  l <> [] ->
  exists m, py_max l = Ok m /\ In m l /\ Forall (fun y => y <= m) l.
Proof.
  destruct l as [|a r]; [congruence | intros _].
  destruct (fold_max_spec r a) as (Hin & Hle & Hall).
  eexists. split; [reflexivity|]. split.
  - destruct Hin as [-> | Hin]; [now left | now right].
  - constructor; assumption.
Qed.

Lemma py_min_spec (l : list Q) :
  l <> [] ->
  exists m, py_min l = Ok m /\ In m l /\ Forall (fun y => m <= y) l.
Proof.
  destruct l as [|a r]; [congruence | intros _].
  destruct (fold_min_spec r a) as (Hin & Hle & Hall).
  eexists. split; [reflexivity|]. split.
  - destruct Hin as [-> | Hin]; [now left | now right].
  - constructor; assumption.
Qed.

Lemma greatest_spec (l : list Q) :
  l <> [] ->
  (exists y, In y l /\ greatest l == y) /\ Forall (fun y => y <= greatest l) l.
Proof.
  destruct l as [|a r]; [congruence | intros _]. simpl greatest.
  induction r as [|b r IH]; simpl.
  - split; [exists a; split; [now left | reflexivity]|].
    constructor; [apply Qle_refl | constructor].
  - destruct IH as ((y & Hy & Ey) & Hall).
    set (G := fold_right Qmax a r) in *.
    inversion Hall as [|? ? Ha Hr]; subst. split.
    + destruct (Q.max_dec b G) as [E | E].
      * exists b. split; [right; now left | exact E].
      * exists y. split; [|now rewrite E].
        destruct Hy as [-> | Hy]; [now left | right; now right].
    + assert (HG : G <= Qmax b G) by apply Q.le_max_r.
      constructor; [eapply Qle_trans; eassumption|].
      constructor; [apply Q.le_max_l|].
      eapply Forall_impl; [|exact Hr]. simpl. intros z Hz.
      eapply Qle_trans; eassumption.
Qed.

Lemma least_spec (l : list Q) :
  l <> [] ->
  (exists y, In y l /\ least l == y) /\ Forall (fun y => least l <= y) l.
Proof.
  destruct l as [|a r]; [congruence | intros _]. simpl least.
  induction r as [|b r IH]; simpl.
  - split; [exists a; split; [now left | reflexivity]|].
    constructor; [apply Qle_refl | constructor].
  - destruct IH as ((y & Hy & Ey) & Hall).
    set (G := fold_right Qmin a r) in *.
    inversion Hall as [|? ? Ha Hr]; subst. split.
    + destruct (Q.min_dec b G) as [E | E].
      * exists b. split; [right; now left | exact E].
      * exists y. split; [|now rewrite E].
        destruct Hy as [-> | Hy]; [now left | right; now right].
    + assert (HG : Qmin b G <= G) by apply Q.le_min_r.
      constructor; [eapply Qle_trans; eassumption|].
      constructor; [apply Q.le_min_l|].
      eapply Forall_impl; [|exact Hr]. simpl. intros z Hz.
      eapply Qle_trans; eassumption.
Qed.

Lemma py_max_greatest (l : list Q) :
  l <> [] -> exists m, py_max l = Ok m /\ m == greatest l.
Proof.
  intros Hl. destruct (py_max_spec l Hl) as (m & E & Hin & Hall).
  destruct (greatest_spec l Hl) as ((y & Hy & Ey) & Hub).
  exists m. split; [exact E|]. rewrite Forall_forall in Hall, Hub.
  apply Qle_antisym; [now apply Hub|]. rewrite Ey. now apply Hall.
Qed.

Lemma py_min_least (l : list Q) :
  l <> [] -> exists m, py_min l = Ok m /\ m == least l.
Proof.
  intros Hl. destruct (py_min_spec l Hl) as (m & E & Hin & Hall).
  destruct (least_spec l Hl) as ((y & Hy & Ey) & Hlb).
  exists m. split; [exact E|]. rewrite Forall_forall in Hall, Hlb.
  apply Qle_antisym; [|now apply Hlb]. rewrite Ey. now apply Hall.
Qed.

(** On three non-empty axes the test answers, and its answer is the
    comparison of the extent with the threshold. *)
Lemma is_fixation_idt_value (w : GazeBuf) (thr : Q) :
  X_ w <> [] -> Y_ w <> [] -> Z_ w <> [] ->
  is_fixation_idt w thr = Ok (Qltb (extent w) thr).
Proof.
  intros HX HY HZ. unfold is_fixation_idt.
  destruct (py_max_greatest _ HX) as (MX & -> & EMX).
  destruct (py_min_least _ HX) as (mX & -> & EmX).
  destruct (py_max_greatest _ HY) as (MY & -> & EMY).
  destruct (py_min_least _ HY) as (mY & -> & EmY).
  destruct (py_max_greatest _ HZ) as (MZ & -> & EMZ).
  destruct (py_min_least _ HZ) as (mZ & -> & EmZ).
  cbn [bind].
  destruct (py_max_greatest [MX - mX; MY - mY; MZ - mZ]) as (m & -> & Em);
    [discriminate|].
  cbn [bind]. f_equal. unfold Qltb. f_equal.
  apply Qleb_comp; [reflexivity|].
  rewrite Em. unfold extent, axis_range. simpl greatest at 1 4.
  now rewrite EMX, EmX, EMY, EmY, EMZ, EmZ.
Qed.

(** ** The loop body, case by case *)

Lemma last_map {A B : Type} (f : A -> B) (l : list A) (d : A) :
  last (map f l) (f d) = f (last l d).
Proof.
  induction l as [|a [|b l] IH]; simpl in *; auto.
Qed.

Lemma save_fixation_buf_of (first : Sample) (others : list Sample) :
  save_fixation (buf_of (first :: others)) = Ok (summary first others).
Proof.
  unfold save_fixation, summary.
  cbn [buf_of timestamps X_ Y_ Z_ origin].
  change (map timestamp (first :: others))
    with (timestamp first :: map timestamp others).
  rewrite py_last_cons.
  change (timestamp first :: map timestamp others)
    with (map timestamp (first :: others)).
  rewrite last_map. cbn [py_first bind map np_column].
  change (gaze_origin first :: map gaze_origin others)
    with (map gaze_origin (first :: others)).
  now rewrite !map_map.
Qed.

Lemma is_fixation_idt_buf_of (w : list Sample) (thr : Q) :
  w <> [] -> is_fixation_idt (buf_of w) thr = Ok (Qltb (extent (buf_of w)) thr).
Proof.
  intros Hw. apply is_fixation_idt_value;
    destruct w; simpl; congruence.
Qed.

Lemma py_slice_from_newest {A : Type} (k : Z) (l : list A) :
  exists older, l = older ++ py_slice_from k l.
Proof.
  unfold py_slice_from. eexists. symmetry. apply firstn_skipn.
Qed.

Section LoopFacts.

Variable n : Z.
Variables minS maxS : Q.

Lemma loop_snoc (st : State) (pre : list Sample) (s : Sample) :
  loop n minS maxS st (pre ++ [s])
  = (st' <- loop n minS maxS st pre ;; loop_body n minS maxS st' s).
Proof.
  revert st. induction pre as [|a pre IH]; intros st; simpl.
  - now destruct (loop_body n minS maxS st s).
  - destruct (loop_body n minS maxS st a); simpl; auto.
Qed.

Lemma loop_body_accumulating (q : list Sample) (rows : list Fix.t)
      (s : Sample) :
  loop_body n minS maxS (accumulating q rows) s =
  if (Z.of_nat (length (q ++ [s])) >=? n)%Z then
    let q' := py_slice_from (- n) (q ++ [s]) in
    b <- is_fixation_idt (buf_of q') minS ;;
    Ok (if b then fixating q' rows else accumulating q' rows)
  else Ok (accumulating (q ++ [s]) rows).
Proof.
  unfold loop_body, accumulating.
  cbn [processing_fixation negb gaze_points_queue fixation fixations].
  rewrite buf_of_snoc, keep_newest_buf_of.
  cbn [buf_of timestamps]. rewrite length_map.
  destruct (_ >=? n)%Z; [|reflexivity]. cbn zeta.
  destruct (is_fixation_idt _ minS) as [[|]|e]; reflexivity.
Qed.

Lemma loop_body_fixating (first : Sample) (others : list Sample)
      (rows : list Fix.t) (s : Sample) :
  loop_body n minS maxS (fixating (first :: others) rows) s =
  (b <- is_fixation_idt (buf_of ((first :: others) ++ [s])) maxS ;;
   Ok (if b then fixating ((first :: others) ++ [s]) rows
       else accumulating [s] (rows ++ [summary first others]))).
Proof.
  unfold loop_body, fixating.
  cbn [processing_fixation negb gaze_points_queue fixation fixations].
  rewrite buf_of_snoc.
  destruct (is_fixation_idt _ maxS) as [[|]|e]; cbn [bind negb];
    try reflexivity.
  rewrite pop_outlier_snoc. cbn [bind].
  now rewrite save_fixation_buf_of.
Qed.

Lemma newest_of_snoc (w pre : list Sample) (s : Sample) :
  newest_of w pre -> newest_of (w ++ [s]) (pre ++ [s]).
Proof.
  intros (older & ->). exists older. now rewrite app_assoc.
Qed.

Lemma newest_of_slice (k : Z) (w pre : list Sample) :
  newest_of w pre -> newest_of (py_slice_from k w) pre.
Proof.
  intros (older & ->). destruct (py_slice_from_newest k w) as (o' & E).
  exists (older ++ o'). rewrite <- app_assoc. now rewrite <- E.
Qed.

Lemma newest_of_last (pre : list Sample) (s : Sample) :
  newest_of [s] (pre ++ [s]).
Proof. now exists pre. Qed.

Lemma tested_window_nonempty (w : list Sample) (thr : Q) (b : bool) :
  is_fixation_idt (buf_of w) thr = Ok b ->
  exists first others, w = first :: others.
Proof.
  destruct w as [|first others]; [discriminate | eauto].
Qed.

Lemma py_slice_count (q : list Sample) (s : Sample) :
  (1 <= n)%Z -> (n <= Z.of_nat (length (q ++ [s])))%Z ->
  Z.of_nat (length (py_slice_from (- n) (q ++ [s]))) = n.
Proof.
  intros H1 H2. destruct (py_slice_newest n (q ++ [s])) as (? & _ & E); auto.
Qed.

(** Every successful iteration from a well-shaped state is one of the five
    cases, and leaves a well-shaped state. *)
Lemma loop_body_cases (pre : list Sample) (st st' : State) (s : Sample) :
  shape n pre st ->
  loop_body n minS maxS st s = Ok st' ->
  step_case n minS maxS pre st s st' /\ shape n (pre ++ [s]) st'.
Proof.
  intros [q Hst Hnew Hcap | first others Hst Hnew Hcap] H.
  - rewrite Hst, loop_body_accumulating in H.
    destruct (Z.geb_spec (Z.of_nat (length (q ++ [s]))) n) as [Hge | Hlt].
    + cbn zeta in H.
      assert (Hnew' : newest_of (py_slice_from (- n) (q ++ [s])) (pre ++ [s]))
        by now apply newest_of_slice, newest_of_snoc.
      destruct (is_fixation_idt _ minS) as [[|]|e] eqn:E; cbn [bind] in H;
        inversion H; subst st'; clear H.
      * split; [now apply step_start|].
        destruct (tested_window_nonempty _ _ _ E) as (f & o & Ew).
        rewrite Ew in *.
        apply (FixatingActive _ _ _ f o); [reflexivity | exact Hnew' |].
        destruct (Z.le_gt_cases 1 n) as [H1 | H0].
        -- rewrite <- Ew, py_slice_count; auto; lia.
        -- lia.
      * split; [now apply step_reject|].
        apply (Accumulating _ _ _ (py_slice_from (- n) (q ++ [s])));
          [reflexivity | exact Hnew' |].
        intros H1. rewrite py_slice_count; auto; lia.
    + inversion H; subst st'; clear H. split; [now apply step_fill|].
      apply (Accumulating _ _ _ (q ++ [s]));
        [reflexivity | now apply newest_of_snoc | lia].
  - rewrite Hst, loop_body_fixating in H.
    destruct (is_fixation_idt _ maxS) as [[|]|e] eqn:E; cbn [bind] in H;
      [| |discriminate]; injection H as <-.
    + split; [now apply (step_grow _ _ _ _ _ _ (first :: others))|].
      apply (FixatingActive _ _ _ first (others ++ [s]));
        [reflexivity | now apply (newest_of_snoc (first :: others)) |].
      simpl length in *. rewrite length_app. simpl. lia.
    + split; [now apply step_end|].
      apply (Accumulating _ _ _ [s]);
        [reflexivity | apply newest_of_last | simpl; lia].
Qed.

(** With a valid count no iteration raises. *)
Lemma loop_body_total (pre : list Sample) (st : State) (s : Sample) :
  (1 <= n)%Z ->
  shape n pre st ->
  exists st', loop_body n minS maxS st s = Ok st'.
Proof.
  intros H1 [q Hst Hnew Hcap | first others Hst Hnew Hcap].
  - rewrite Hst, loop_body_accumulating.
    destruct (Z.geb_spec (Z.of_nat (length (q ++ [s]))) n) as [Hge | Hlt];
      [|eauto].
    cbn zeta.
    rewrite is_fixation_idt_buf_of; [cbn [bind]; eauto|].
    intros E. pose proof (py_slice_count q s H1 Hge) as Hc.
    rewrite E in Hc. simpl in Hc. lia.
  - rewrite Hst, loop_body_fixating.
    rewrite is_fixation_idt_buf_of; [cbn [bind]; eauto | discriminate].
Qed.

Lemma shape_init : shape n [] init_state.
Proof.
  apply (Accumulating _ _ _ []); [reflexivity | now exists [] | simpl; lia].
Qed.

(** Every state the loop reaches is well shaped. *)
Lemma loop_shape (pre : list Sample) (st : State) :
  loop n minS maxS init_state pre = Ok st -> shape n pre st.
Proof.
  revert st. induction pre as [|s pre IH] using rev_ind; intros st H.
  - injection H as <-. apply shape_init.
  - rewrite loop_snoc in H.
    destruct (loop n minS maxS init_state pre) as [st0|e]; [|discriminate].
    cbn [bind] in H. eapply loop_body_cases; eauto.
Qed.

(** With a valid count the loop runs to its end on every input. *)
Lemma loop_total (data : list Sample) :
  (1 <= n)%Z -> exists st, loop n minS maxS init_state data = Ok st.
Proof.
  intros H1. induction data as [|s pre IH] using rev_ind.
  - now exists init_state.
  - destruct IH as (st & E). rewrite loop_snoc, E. cbn [bind].
    eapply loop_body_total; [exact H1 | eapply loop_shape; exact E].
Qed.

End LoopFacts.

(** ** The dispersion test *)

Lemma is_fixation_idt_unrounded (w : GazeBuf) (thr : Q) :
  is_fixation_idt_rounded (fun q => q) w thr = is_fixation_idt w thr.
Proof. reflexivity. Qed.



(** ** The end of a fixation *)

Section EndOfFixation.

Variable n : Z.
Variables minS maxS : Q.

(** A reachable state in which a fixation is being processed holds a
    non-empty window of the newest rows. *)
Lemma reachable_fixating (pre : list Sample) (st : State) :
  loop n minS maxS init_state pre = Ok st ->
  processing_fixation st = true ->
  exists first others,
    st = fixating (first :: others) (fixations st) /\
    newest_of (first :: others) pre /\
    (n <= Z.of_nat (length (first :: others)))%Z.
Proof.
  intros Hrun Hp. destruct (loop_shape _ _ _ _ _ Hrun) as [q Hst _ _ | f o Hst Hn Hc].
  - rewrite Hst in Hp. discriminate.
  - eauto.
Qed.

Lemma reachable_accumulating (pre : list Sample) (st : State) :
  loop n minS maxS init_state pre = Ok st ->
  processing_fixation st = false ->
  exists q,
    st = accumulating q (fixations st) /\
    newest_of q pre /\
    ((1 <= n)%Z -> (Z.of_nat (length q) <= n)%Z).
Proof.
  intros Hrun Hp. destruct (loop_shape _ _ _ _ _ Hrun) as [q Hst Hn Hc | f o Hst _ _].
  - eauto.
  - rewrite Hst in Hp. discriminate.
Qed.


(** C2.  Under the same conditions the row [s] that failed the test is
    taken out of the window before the output row is computed, and the new
    queue holds [s] alone, one entry in each of its five lists; no fixation
    is in progress afterwards. *)
Theorem outlier_reseeds_queue (pre : list Sample) (st : State) (s : Sample) :
  loop n minS maxS init_state pre = Ok st ->
  processing_fixation st = true ->
  is_fixation_idt (append_sample (fixation st) s) maxS = Ok false ->
  exists w r st',
    fixation st = buf_of w /\
    pop_outlier (append_sample (fixation st) s) = Ok (buf_of w, buf_of [s]) /\
    save_fixation (buf_of w) = Ok r /\
    loop_body n minS maxS st s = Ok st' /\
    fixations st' = fixations st ++ [r] /\
    gaze_points_queue st' =
      mkBuf [timestamp s] [direction_x s] [direction_y s] [direction_z s]
            [gaze_origin s] /\
    fixation st' = empty_buf /\
    processing_fixation st' = false.
Proof.
  intros Hrun Hp Ht.
  destruct (reachable_fixating _ _ Hrun Hp) as (first & others & Hst & _ & _).
  exists (first :: others), (summary first others),
    (accumulating [s] (fixations st ++ [summary first others])).
  assert (Hf : fixation st = buf_of (first :: others)) by now rewrite Hst.
  rewrite Hf in *. rewrite buf_of_snoc in *.
  split; [reflexivity|]. split; [apply pop_outlier_snoc|].
  split; [apply save_fixation_buf_of|]. split.
  - rewrite Hst, loop_body_fixating, Ht. reflexivity.
  - repeat split.
Qed.

End EndOfFixation.

(** ** The queue and the calls of the dispersion test *)

Section Queue.

Variable n : Z.
Variables minS maxS : Q.

Lemma extract_fixations_rows (data : list Sample) (st : State) :
  loop n minS maxS init_state data = Ok st ->
  extract_fixations n minS maxS data = Ok (frame_of (fixations st)).
Proof.
  intros E. unfold extract_fixations. now rewrite E.
Qed.

(** C4.  The frame returned is made of the rows recorded during the loop
    and of nothing else: what the queue or the fixation still hold when the
    input ends adds no row.  Hence a last row [s] that does not fail the
    test of a fixation in progress (no fixation is in progress, or the
    window with [s] appended still passes) leaves the output as it was,
    while the state after it may hold an open fixation; and with a count of
    at least one the loop does reach that state. *)
Theorem end_of_stream_discard (pre : list Sample) (st : State) (s : Sample) :
  loop n minS maxS init_state pre = Ok st ->
  processing_fixation st = false \/
  is_fixation_idt (append_sample (fixation st) s) maxS = Ok true ->
  extract_fixations n minS maxS pre = Ok (frame_of (fixations st)) /\
  (forall st',
      loop n minS maxS init_state (pre ++ [s]) = Ok st' ->
      fixations st' = fixations st /\
      extract_fixations n minS maxS (pre ++ [s])
        = Ok (frame_of (fixations st))) /\
  ((1 <= n)%Z ->
   exists st', loop n minS maxS init_state (pre ++ [s]) = Ok st').
Proof.
  intros Hrun Hc. split; [now apply extract_fixations_rows|].
  pose proof (loop_shape _ _ _ _ _ Hrun) as Hsh. split.
  - intros st' Hrun'.
    assert (Hb : loop_body n minS maxS st s = Ok st')
      by (rewrite loop_snoc, Hrun in Hrun'; exact Hrun').
    assert (Hrows : fixations st' = fixations st).
    { destruct (loop_body_cases _ _ _ _ _ _ _ Hsh Hb) as (Hcase & _).
      destruct Hcase as [q Hst _ _ | q Hst _ _ _ | q Hst _ _ _
                        | w Hst _ _ _ | f o Hst _ _ Ht]; try reflexivity.
      exfalso. destruct Hc as [Hp | Hpass].
      - rewrite Hst in Hp. discriminate.
      - rewrite Hst in Hpass. cbn [fixating fixation] in Hpass.
        rewrite buf_of_snoc in Hpass. congruence. }
    split; [exact Hrows|].
    rewrite <- Hrows. now apply extract_fixations_rows.
  - intros H1.
    destruct (loop_body_total n minS maxS pre st s H1 Hsh) as (st' & Hb).
    exists st'. rewrite loop_snoc, Hrun. exact Hb.
Qed.

(** C5.  For a count of at least one, a state reached by the loop in which
    no fixation is in progress has a queue of at most [n] rows, the newest
    ones read.  On the next row [s]: while the queue with [s] appended is
    shorter than [n], the iteration only stores it and runs no test;
    otherwise the iteration runs the test for the start of a fixation, and
    runs it on the queue cut down to exactly [n] rows, the newest [n] read
    up to and including [s], which become the fixation or the queue
    according to the answer. *)
Theorem queue_cap (pre : list Sample) (st : State) :
  (1 <= n)%Z ->
  loop n minS maxS init_state pre = Ok st ->
  processing_fixation st = false ->
  exists q,
    gaze_points_queue st = buf_of q /\
    newest_of q pre /\
    (Z.of_nat (length q) <= n)%Z /\
    forall s,
      ((Z.of_nat (length (timestamps
                            (append_sample (gaze_points_queue st) s))) < n)%Z ->
       loop_body n minS maxS st s
       = Ok (accumulating (q ++ [s]) (fixations st))) /\
      ((n <= Z.of_nat (length (timestamps
                                 (append_sample (gaze_points_queue st) s))))%Z ->
       exists w,
         keep_newest n (append_sample (gaze_points_queue st) s) = buf_of w /\
         newest_of w (pre ++ [s]) /\
         Z.of_nat (length w) = n /\
         loop_body n minS maxS st s
         = (b <- is_fixation_idt (buf_of w) minS ;;
            Ok (if b then fixating w (fixations st)
                else accumulating w (fixations st)))).
Proof.
  intros H1 Hrun Hp.
  destruct (reachable_accumulating _ _ _ _ _ Hrun Hp) as (q & Hst & Hnew & Hcap).
  assert (Hq : gaze_points_queue st = buf_of q) by now rewrite Hst.
  exists q. split; [exact Hq|]. split; [exact Hnew|]. split; [auto|].
  intros s.
  pose proof (loop_body_accumulating n minS maxS q (fixations st) s) as Hbody.
  rewrite <- Hst in Hbody. rewrite Hbody, Hq, buf_of_snoc.
  cbn [buf_of timestamps]. rewrite length_map.
  split; intros Hlen.
  - replace (Z.of_nat (length (q ++ [s])) >=? n)%Z with false
      by (symmetry; rewrite Z.geb_leb; apply Z.leb_gt; lia).
    reflexivity.
  - replace (Z.of_nat (length (q ++ [s])) >=? n)%Z with true
      by (symmetry; rewrite Z.geb_leb; apply Z.leb_le; lia).
    exists (py_slice_from (- n) (q ++ [s])).
    split; [apply keep_newest_buf_of|]. split.
    + now apply newest_of_slice, newest_of_snoc.
    + split; [now apply py_slice_count | reflexivity].
Qed.

(** C7.  For a count of at least one and whatever the thresholds,
    [extract_fixations] returns a frame on every input.  In every state the
    loop reaches, the dispersion test is called on a non-empty window and
    answers: when no fixation is in progress and the queue with the next
    row has reached [n] rows, on exactly [n] rows; when a fixation is in
    progress, on at least [n + 1] rows. *)
Theorem extract_fixations_never_raises (data : list Sample) :
  (1 <= n)%Z ->
  (exists df, extract_fixations n minS maxS data = Ok df) /\
  forall pre s rest st,
    data = pre ++ s :: rest ->
    loop n minS maxS init_state pre = Ok st ->
    (processing_fixation st = false ->
     (n <= Z.of_nat (length (timestamps
                               (append_sample (gaze_points_queue st) s))))%Z ->
     exists w b,
       keep_newest n (append_sample (gaze_points_queue st) s) = buf_of w /\
       Z.of_nat (length w) = n /\
       is_fixation_idt (buf_of w) minS = Ok b) /\
    (processing_fixation st = true ->
     exists w b,
       append_sample (fixation st) s = buf_of w /\
       (n + 1 <= Z.of_nat (length w))%Z /\
       is_fixation_idt (buf_of w) maxS = Ok b).
Proof.
  intros H1. split.
  - destruct (loop_total n minS maxS data H1) as (st & E).
    exists (frame_of (fixations st)). now apply extract_fixations_rows.
  - intros pre s rest st _ Hrun. split; intros Hp.
    + intros Hlen.
      destruct (reachable_accumulating _ _ _ _ _ Hrun Hp) as (q & Hst & _ & _).
      assert (Hq : gaze_points_queue st = buf_of q) by now rewrite Hst.
      rewrite Hq, buf_of_snoc in *.
      cbn [buf_of timestamps] in Hlen. rewrite length_map in Hlen.
      pose proof (py_slice_count n q s H1 Hlen) as Hc.
      exists (py_slice_from (- n) (q ++ [s])), (Qltb (extent (buf_of (py_slice_from (- n) (q ++ [s])))) minS).
      split; [apply keep_newest_buf_of|]. split; [exact Hc|].
      apply is_fixation_idt_buf_of. intros E. rewrite E in Hc. simpl in Hc. lia.
    + destruct (reachable_fixating _ _ _ _ _ Hrun Hp) as (f & o & Hst & _ & Hc).
      assert (Hf : fixation st = buf_of (f :: o)) by now rewrite Hst.
      rewrite Hf, buf_of_snoc.
      exists ((f :: o) ++ [s]), (Qltb (extent (buf_of ((f :: o) ++ [s]))) maxS).
      split; [reflexivity|]. split.
      * rewrite length_app. simpl length in *. lia.
      * apply is_fixation_idt_buf_of. discriminate.
Qed.

(** C9.  On an input of zero rows, and for every value of the parameters,
    [extract_fixations] returns the frame with the columns [start], [end],
    [x], [y], [z], [origin_x], [origin_y], [origin_z] and no row. *)
Theorem extract_fixations_empty_input :
  extract_fixations n minS maxS [] =
  Ok (mkFrame ["start"; "end"; "x"; "y"; "z";
               "origin_x"; "origin_y"; "origin_z"]%string []).
Proof. reflexivity. Qed.

End Queue.

(** ** The output rows *)

Section Rows.

Variable n : Z.
Variables minS maxS : Q.

(** A property of the rows read and the rows recorded holds at the end of
    the loop when it holds at the start, survives reading one more row, and
    survives the recording of the summary of a fixation that row [s]
    ends. *)
Lemma loop_rows_invariant (P : list Sample -> list Fix.t -> Prop) :
  P [] [] ->
  (forall pre s rs, P pre rs -> P (pre ++ [s]) rs) ->
  (forall pre s first others rs,
      P pre rs ->
      newest_of (first :: others) pre ->
      (n <= Z.of_nat (length (first :: others)))%Z ->
      is_fixation_idt (buf_of ((first :: others) ++ [s])) maxS = Ok false ->
      P (pre ++ [s]) (rs ++ [summary first others])) ->
  forall data st,
    loop n minS maxS init_state data = Ok st -> P data (fixations st).
Proof.
  intros P0 Pread Pend data.
  induction data as [|s pre IH] using rev_ind; intros st Hrun.
  - injection Hrun as <-. exact P0.
  - rewrite loop_snoc in Hrun.
    destruct (loop n minS maxS init_state pre) as [st0|e] eqn:E;
      [|discriminate].
    cbn [bind] in Hrun. specialize (IH st0 eq_refl).
    pose proof (loop_shape _ _ _ _ _ E) as Hsh.
    destruct (loop_body_cases _ _ _ _ _ _ _ Hsh Hrun) as (Hcase & _).
    destruct Hcase; cbn [accumulating fixating fixations]; auto.
Qed.

Lemma sorted_snoc_inv (l : list Sample) (a : Sample) :
  StronglySorted Qle (map timestamp (l ++ [a])) ->
  StronglySorted Qle (map timestamp l) /\
  Forall (fun b => timestamp b <= timestamp a) (l ++ [a]).
Proof.
  induction l as [|b l IH]; simpl; intros H.
  - split; [constructor|]. constructor; [apply Qle_refl | constructor].
  - inversion H as [|? ? Hs Hb]; subst. destruct (IH Hs) as (IH1 & IH2).
    rewrite map_app, Forall_app in Hb. destruct Hb as (Hb1 & Hb2).
    split; [now constructor|].
    constructor; [|exact IH2]. now inversion Hb2.
Qed.

Lemma StronglySorted_snoc {A : Type} (R : A -> A -> Prop) (l : list A) (a : A) :
  StronglySorted R l -> Forall (fun b => R b a) l ->
  StronglySorted R (l ++ [a]).
Proof.
  induction 1 as [|b l Hs IH Hb]; simpl; intros Ha.
  - repeat constructor.
  - inversion Ha; subst. constructor; [auto|].
    rewrite Forall_app. split; [exact Hb | now repeat constructor].
Qed.

(** In sorted input, no timestamp read exceeds that of the last row of the
    newest window. *)
Lemma newest_last_is_latest (pre : list Sample) (first : Sample)
      (others : list Sample) :
  StronglySorted Qle (map timestamp pre) ->
  newest_of (first :: others) pre ->
  In (last (first :: others) first) pre /\
  Forall (fun b => timestamp b <= timestamp (last (first :: others) first)) pre.
Proof.
  intros Hs (older & ->).
  destruct (@exists_last _ (first :: others)) as (w & L & E); [discriminate|].
  rewrite E in *. rewrite last_last. rewrite app_assoc in *.
  split; [apply in_or_app; right; now left|].
  now apply sorted_snoc_inv.
Qed.

Lemma rows_ordered_invariant (data : list Sample) (st : State) :
  loop n minS maxS init_state data = Ok st ->
  StronglySorted Qle (map timestamp data) ->
  Forall (well_timed data) (fixations st) /\
  StronglySorted end_le (fixations st).
Proof.
  revert data st.
  apply (loop_rows_invariant
           (fun pre rs =>
              StronglySorted Qle (map timestamp pre) ->
              Forall (well_timed pre) rs /\ StronglySorted end_le rs)).
  - intros _. split; constructor.
  - intros pre s rs IH Hs. apply sorted_snoc_inv in Hs as (Hs & _).
    destruct (IH Hs) as (Hw & Ho). split; [|exact Ho].
    eapply Forall_impl; [|exact Hw]. intros r (Hr & s' & Hin & He).
    split; [exact Hr|]. exists s'. split; [|exact He].
    apply in_or_app. now left.
  - intros pre s first others rs IH Hnew _ _ Hs.
    apply sorted_snoc_inv in Hs as (Hs & _).
    destruct (IH Hs) as (Hw & Ho).
    destruct (newest_last_is_latest _ _ _ Hs Hnew) as (Hin & Hlate).
    rewrite Forall_forall in Hlate.
    assert (Hfirst : In first pre).
    { destruct Hnew as (older & ->). apply in_or_app. right. now left. }
    split.
    + rewrite Forall_app. split.
      * eapply Forall_impl; [|exact Hw]. intros r (Hr & s' & Hin' & He).
        split; [exact Hr|]. exists s'. split; [|exact He].
        apply in_or_app. now left.
      * constructor; [|constructor]. split; [now apply Hlate|].
        eexists. split; [|reflexivity]. apply in_or_app. now left.
    + apply StronglySorted_snoc; [exact Ho|].
      eapply Forall_impl; [|exact Hw]. intros r (_ & s' & Hin' & He).
      unfold end_le. rewrite He. now apply Hlate.
Qed.

(** C6.  When the timestamps of the input are in non-decreasing order,
    every row of the frame returned has [start <= end], and the rows are in
    non-decreasing order of [end]; with a count of at least one a frame is
    returned. *)
Theorem rows_ordered (data : list Sample) :
  nondecreasing (map timestamp data) ->
  ((1 <= n)%Z -> exists df, extract_fixations n minS maxS data = Ok df) /\
  forall df,
    extract_fixations n minS maxS data = Ok df ->
    Forall (fun r => Fix.start r <= Fix.end_ r) (rows df) /\
    StronglySorted (fun a b => Fix.end_ a <= Fix.end_ b) (rows df).
Proof.
  intros Hs. split.
  - intros H1. destruct (loop_total n minS maxS data H1) as (st & E).
    exists (frame_of (fixations st)). now apply extract_fixations_rows.
  - intros df H. unfold extract_fixations in H.
    destruct (loop n minS maxS init_state data) as [st|e] eqn:E;
      [|discriminate].
    injection H as <-. cbn [rows].
    apply Sorted_StronglySorted in Hs;
      [|intros a b c; apply Qle_trans].
    destruct (rows_ordered_invariant _ _ E Hs) as (Hw & Ho).
    split; [|exact Ho].
    eapply Forall_impl; [|exact Hw]. now intros r (Hr & _).
Qed.

Lemma rows_summarise (data : list Sample) (st : State) :
  loop n minS maxS init_state data = Ok st ->
  Forall (summarises n maxS data) (fixations st).
Proof.
  revert data st.
  apply (loop_rows_invariant (fun pre rs => Forall (summarises n maxS pre) rs)).
  - constructor.
  - intros pre s rs IH. eapply Forall_impl; [|exact IH].
    intros r (b & f & o & s' & a & -> & Hlen & Ht & ->).
    exists b, f, o, s', (a ++ [s]). repeat split; auto.
    now rewrite <- !app_assoc.
  - intros pre s first others rs IH (older & ->) Hlen Ht.
    rewrite Forall_app. split.
    + eapply Forall_impl; [|exact IH].
      intros r (b & f & o & s' & a & E & Hl & Ht' & ->).
      exists b, f, o, s', (a ++ [s]). repeat split; auto.
      rewrite E. now rewrite <- !app_assoc.
    + constructor; [|constructor].
      exists older, first, others, s, []. repeat split; auto.
      now rewrite <- app_assoc.
Qed.

End Rows.

Section Fixations.

Variable n : Z.
Variables minS maxS : Q.

(** C10.  For a count of at least one, [extract_fixations] returns a frame
    each row of which summarises a run of at least [n] consecutive input
    rows (so never an empty one), the run that the next input row ended.
    On the way, a fixation starts with a window of exactly [n] rows, and
    while it goes on each row read is added to the window. *)
Theorem every_row_summarises_enough (data : list Sample) :
  (1 <= n)%Z ->
  (exists df,
      extract_fixations n minS maxS data = Ok df /\
      Forall (summarises n maxS data) (rows df)) /\
  (forall pre s st st',
      loop n minS maxS init_state pre = Ok st ->
      loop_body n minS maxS st s = Ok st' ->
      processing_fixation st' = true ->
      exists w,
        fixation st' = buf_of w /\
        if processing_fixation st
        then exists w0, fixation st = buf_of w0 /\ w = w0 ++ [s] /\
                        (n <= Z.of_nat (length w0))%Z
        else Z.of_nat (length w) = n).
Proof.
  intros H1. split.
  - destruct (loop_total n minS maxS data H1) as (st & E).
    exists (frame_of (fixations st)).
    split; [now apply extract_fixations_rows|].
    cbn [frame_of rows]. eapply rows_summarise; exact E.
  - intros pre s st st' Hrun Hb Hp'.
    pose proof (loop_shape _ _ _ _ _ Hrun) as Hsh.
    destruct (loop_body_cases _ _ _ _ _ _ _ Hsh Hb) as (Hcase & _).
    destruct Hcase as [q Hst _ _ | q Hst _ _ _ | q Hst _ Hlen _
                      | w Hst _ Hlen _ | f o Hst _ _ _];
      try discriminate Hp'.
    + exists (py_slice_from (- n) (q ++ [s])). split; [reflexivity|].
      rewrite Hst. cbn [accumulating processing_fixation].
      now apply py_slice_count.
    + exists (w ++ [s]). split; [reflexivity|].
      rewrite Hst. cbn [fixating processing_fixation fixation].
      exists w. auto.
Qed.

(** C8.  For a count of at least one, when no run of [n] consecutive input
    rows has a dispersion extent strictly below [min_fixation_size],
    [extract_fixations] returns a frame without rows, whatever the length
    of the input. *)
Theorem no_start_no_rows (data : list Sample) :
  (1 <= n)%Z ->
  (forall before w after,
      data = before ++ w ++ after ->
      Z.of_nat (length w) = n ->
      ~ extent (buf_of w) < minS) ->
  exists df, extract_fixations n minS maxS data = Ok df /\ rows df = [].
Proof.
  intros H1 Hno.
  assert (Hinv : exists q, loop n minS maxS init_state data
                           = Ok (accumulating q []) /\ newest_of q data).
  { induction data as [|s pre IH] using rev_ind.
    - exists []. split; [reflexivity | now exists []].
    - destruct IH as (q & E & Hnew).
      { intros b w a -> Hlen. apply (Hno b w (a ++ [s])); auto.
        now rewrite <- !app_assoc. }
      rewrite loop_snoc, E. cbn [bind]. rewrite loop_body_accumulating.
      destruct (Z.geb_spec (Z.of_nat (length (q ++ [s]))) n) as [Hge | Hlt].
      + cbn zeta. set (q' := py_slice_from (- n) (q ++ [s])).
        assert (Hq' : newest_of q' (pre ++ [s]))
          by now apply newest_of_slice, newest_of_snoc.
        pose proof (py_slice_count n q s H1 Hge) as Hc. fold q' in Hc.
        rewrite is_fixation_idt_buf_of
          by (intros E'; rewrite E' in Hc; simpl in Hc; lia).
        cbn [bind].
        destruct (Qltb (extent (buf_of q')) minS) eqn:Elt.
        * exfalso. apply Qltb_lt in Elt. destruct Hq' as (older & Hq').
          apply (Hno older q' []); auto. now rewrite app_nil_r.
        * exists q'. split; [reflexivity | exact Hq'].
      + exists (q ++ [s]). split; [reflexivity | now apply newest_of_snoc]. }
  destruct Hinv as (q & E & _).
  exists (frame_of []). split; [|reflexivity].
  now apply (extract_fixations_rows n minS maxS data (accumulating q [])).
Qed.

End Fixations.

(** * Further properties of the code *)

(** ** The dispersion test: errors and monotonicity *)

(** X1.  The dispersion test raises exactly when one of the three direction
    axes is empty, and what it raises is then [ValueError] (from [max] or
    [min] of an empty list), whatever the threshold. *)
Theorem is_fixation_idt_raises_iff_empty_axis (w : GazeBuf) (thr : Q) (e : exn) :
  is_fixation_idt w thr = Raise e <->
  (X_ w = [] \/ Y_ w = [] \/ Z_ w = []) /\ e = ValueError.
Proof.
  split.
  - intros H.
    destruct (X_ w) as [|x0 X] eqn:EX;
      [unfold is_fixation_idt in H; rewrite EX in H; cbn in H;
       injection H as <-; auto|].
    destruct (Y_ w) as [|y0 Y] eqn:EY;
      [unfold is_fixation_idt in H; rewrite EX, EY in H; cbn in H;
       injection H as <-; auto|].
    destruct (Z_ w) as [|z0 Z] eqn:EZ;
      [unfold is_fixation_idt in H; rewrite EX, EY, EZ in H; cbn in H;
       injection H as <-; auto|].
    rewrite is_fixation_idt_value in H; [discriminate | | |]; congruence.
  - intros (Hempty & ->). unfold is_fixation_idt.
    destruct (X_ w) as [|x0 X]; [reflexivity|].
    destruct (Y_ w) as [|y0 Y]; [reflexivity|].
    destruct (Z_ w) as [|z0 Z]; [reflexivity|].
    destruct Hempty as [H | [H | H]]; discriminate H.
Qed.

Lemma is_fixation_idt_true_iff (w : GazeBuf) (thr : Q) :
  is_fixation_idt w thr = Ok true <->
  (X_ w <> [] /\ Y_ w <> [] /\ Z_ w <> []) /\ extent w < thr.
Proof.
  split.
  - intros H.
    assert (Hne : X_ w <> [] /\ Y_ w <> [] /\ Z_ w <> []).
    { unfold is_fixation_idt in H.
      destruct (X_ w); [discriminate|].
      destruct (Y_ w); [discriminate|].
      destruct (Z_ w); [discriminate|].
      repeat split; discriminate. }
    split; [exact Hne|]. destruct Hne as (HX & HY & HZ).
    rewrite is_fixation_idt_value in H by assumption.
    injection H as H. now apply Qltb_lt.
  - intros ((HX & HY & HZ) & Hlt).
    rewrite is_fixation_idt_value by assumption.
    f_equal. now apply Qltb_lt.
Qed.

(** X2.  A window that passes the test for one threshold passes it for
    every larger one: a window tight enough to start a fixation is tight
    enough to continue it whenever [min_fixation_size <= max_fixation_size]. *)
Theorem is_fixation_idt_threshold_monotone (w : GazeBuf) (thr thr' : Q) :
  is_fixation_idt w thr = Ok true ->
  thr <= thr' ->
  is_fixation_idt w thr' = Ok true.
Proof.
  intros H Hle. apply is_fixation_idt_true_iff in H as (Hne & Hlt).
  apply is_fixation_idt_true_iff. split; [exact Hne|].
  eapply Qlt_le_trans; eassumption.
Qed.

Lemma greatest_incl (l l' : list Q) :
  l <> [] -> incl l l' -> greatest l <= greatest l'.
Proof.
  intros Hl Hi. destruct (greatest_spec l Hl) as ((y & Hy & Ey) & _).
  assert (Hl' : l' <> []) by (intros ->; exact (Hi y Hy)).
  destruct (greatest_spec l' Hl') as (_ & Hub).
  rewrite Forall_forall in Hub. rewrite Ey. apply Hub, Hi, Hy.
Qed.

Lemma least_incl (l l' : list Q) :
  l <> [] -> incl l l' -> least l' <= least l.
Proof.
  intros Hl Hi. destruct (least_spec l Hl) as ((y & Hy & Ey) & _).
  assert (Hl' : l' <> []) by (intros ->; exact (Hi y Hy)).
  destruct (least_spec l' Hl') as (_ & Hlb).
  rewrite Forall_forall in Hlb. rewrite Ey. apply Hlb, Hi, Hy.
Qed.

Lemma axis_range_incl (l l' : list Q) :
  l <> [] -> incl l l' -> axis_range l <= axis_range l'.
Proof.
  intros Hl Hi. unfold axis_range.
  pose proof (greatest_incl l l' Hl Hi). pose proof (least_incl l l' Hl Hi).
  lra.
Qed.

(** Every element of an axis lies between its least and greatest values. *)
Lemma axis_bounds (l : list Q) (y : Q) :
  In y l -> least l <= y /\ y <= greatest l.
Proof.
  intros Hy. assert (Hl : l <> []) by (intros ->; exact Hy).
  destruct (greatest_spec l Hl) as (_ & Hub).
  destruct (least_spec l Hl) as (_ & Hlb).
  rewrite Forall_forall in Hub, Hlb. auto.
Qed.

Lemma axis_range_nonneg (l : list Q) : l <> [] -> 0 <= axis_range l.
Proof.
  destruct l as [|y l]; [congruence | intros _].
  destruct (axis_bounds (y :: l) y) as (H1 & H2); [now left|].
  unfold axis_range. lra.
Qed.

(** The extent is at least the range of each axis. *)
Lemma extent_ge_ranges (w : GazeBuf) :
  axis_range (X_ w) <= extent w /\
  axis_range (Y_ w) <= extent w /\
  axis_range (Z_ w) <= extent w.
Proof.
  unfold extent.
  set (l := [axis_range (X_ w); axis_range (Y_ w); axis_range (Z_ w)]).
  repeat split; apply axis_bounds; subst l; simpl; auto.
Qed.

Lemma extent_lt_iff (w : GazeBuf) (thr : Q) :
  extent w < thr <->
  axis_range (X_ w) < thr /\ axis_range (Y_ w) < thr /\ axis_range (Z_ w) < thr.
Proof.
  unfold extent. simpl greatest. rewrite !Q.max_lub_lt_iff. tauto.
Qed.

Lemma extent_nonneg (w : GazeBuf) : X_ w <> [] -> 0 <= extent w.
Proof.
  intros HX. pose proof (axis_range_nonneg _ HX).
  destruct (extent_ge_ranges w) as (H1 & _). lra.
Qed.

(** X3.  On windows of finite numbers (the only values here: no NaN, on
    which the answer of the code depends on where it sits), a window that
    passes the test still passes it when rows are taken out: if every
    direction value of [w] occurs in [w'], axis by axis, and [w'] passes
    the test, then [w] passes it (its axes being non-empty). *)
Theorem is_fixation_idt_subwindow (w w' : GazeBuf) (thr : Q) :
  X_ w <> [] -> Y_ w <> [] -> Z_ w <> [] ->
  incl (X_ w) (X_ w') -> incl (Y_ w) (Y_ w') -> incl (Z_ w) (Z_ w') ->
  is_fixation_idt w' thr = Ok true ->
  is_fixation_idt w thr = Ok true.
Proof.
  intros HX HY HZ IX IY IZ H.
  apply is_fixation_idt_true_iff in H as (_ & Hlt).
  apply is_fixation_idt_true_iff. split; [auto|].
  apply extent_lt_iff in Hlt as (H1 & H2 & H3). apply extent_lt_iff.
  pose proof (axis_range_incl _ _ HX IX).
  pose proof (axis_range_incl _ _ HY IY).
  pose proof (axis_range_incl _ _ HZ IZ).
  repeat split; lra.
Qed.

(** X4.  A threshold that is not positive is never met: for [thr <= 0] the
    test answers true on no window. *)
Theorem is_fixation_idt_nonpositive_threshold (w : GazeBuf) (thr : Q) :
  thr <= 0 -> is_fixation_idt w thr <> Ok true.
Proof.
  intros Hthr H. apply is_fixation_idt_true_iff in H as ((HX & _) & Hlt).
  pose proof (extent_nonneg w HX). lra.
Qed.

(** ** Edge values of [min_points_per_fixation] *)

Lemma py_slice_from_zero {A : Type} (l : list A) : py_slice_from (- 0) l = l.
Proof.
  unfold py_slice_from. change (- 0 <? 0)%Z with false. cbv iota.
  rewrite Z.min_l by lia. reflexivity.
Qed.

Lemma py_slice_from_last {A : Type} (l : list A) (a : A) :
  py_slice_from (- 1) (l ++ [a]) = [a].
Proof.
  unfold py_slice_from. change (- 1 <? 0)%Z with true. cbv iota.
  rewrite length_app. simpl length.
  replace (Z.to_nat (Z.max (Z.of_nat (length l + 1) + -1) 0)) with (length l)
    by lia.
  rewrite skipn_app, Nat.sub_diag, skipn_all. reflexivity.
Qed.

Lemma py_slice_from_single_positive {A : Type} (k : Z) (a : A) :
  (0 < k)%Z -> py_slice_from k [a] = [].
Proof.
  intros Hk. unfold py_slice_from.
  replace (k <? 0)%Z with false by (symmetry; apply Z.ltb_ge; lia).
  simpl length. replace (Z.to_nat (Z.min k (Z.of_nat 1))) with 1%nat by lia.
  reflexivity.
Qed.

Lemma single_row_passes (s : Sample) (thr : Q) :
  0 < thr -> is_fixation_idt (buf_of [s]) thr = Ok true.
Proof.
  intros Hthr. apply is_fixation_idt_true_iff.
  split; [repeat split; discriminate|].
  apply extent_lt_iff. unfold axis_range. simpl. repeat split; lra.
Qed.

Section EdgeCounts.

Variables minS maxS : Q.

(** X5.  With a count of one and a positive [min_fixation_size], a row of
    finite direction components (the only values here: no NaN, no
    infinity) read while no fixation is in progress starts a fixation made
    of that row alone, whatever the queue held: the rows queued before it,
    such as the row that ended the previous fixation, are dropped
    untested. *)
Theorem count_one_starts_at_once (q : list Sample) (rs : list Fix.t)
        (s : Sample) :
  0 < minS ->
  loop_body 1 minS maxS (accumulating q rs) s = Ok (fixating [s] rs).
Proof.
  intros Hpos. rewrite loop_body_accumulating.
  replace (Z.of_nat (length (q ++ [s])) >=? 1)%Z with true
    by (symmetry; rewrite Z.geb_leb; apply Z.leb_le; rewrite length_app;
        simpl; lia).
  cbn zeta. rewrite py_slice_from_last, single_row_passes by exact Hpos.
  reflexivity.
Qed.

(** X6.  With a negative count, [extract_fixations] raises [ValueError] on
    every input that has a row: the first iteration slices the queue down
    to nothing and calls the test on the empty window. *)
Theorem negative_count_raises_on_rows (n : Z) (s : Sample)
        (rest : list Sample) :
  (n < 0)%Z ->
  extract_fixations n minS maxS (s :: rest) = Raise ValueError.
Proof.
  intros Hn. unfold extract_fixations. cbn [loop].
  change init_state with (accumulating [] []).
  rewrite loop_body_accumulating.
  replace (Z.of_nat (length ([] ++ [s])) >=? n)%Z with true
    by (symmetry; rewrite Z.geb_leb; apply Z.leb_le; simpl; lia).
  cbn zeta. cbn [app]. rewrite py_slice_from_single_positive by lia.
  reflexivity.
Qed.

Lemma loop_body_total_zero (pre : list Sample) (st : State) (s : Sample) :
  shape 0 pre st -> exists st', loop_body 0 minS maxS st s = Ok st'.
Proof.
  intros [q Hst _ _ | first others Hst _ _].
  - rewrite Hst, loop_body_accumulating.
    destruct (_ >=? 0)%Z; [|eauto]. cbn zeta.
    rewrite py_slice_from_zero.
    rewrite is_fixation_idt_buf_of by (destruct q; discriminate).
    cbn [bind]. eauto.
  - rewrite Hst, loop_body_fixating.
    rewrite is_fixation_idt_buf_of by discriminate. cbn [bind]. eauto.
Qed.

(** X7.  With a count of zero, [extract_fixations] returns a frame on every
    input, and the slice [q[-0:]] keeps the whole queue: while no fixation
    is in progress every row read stays in the queue, and the start test is
    run on all of them. *)
Theorem zero_count_keeps_whole_queue (data : list Sample) :
  (exists df, extract_fixations 0 minS maxS data = Ok df) /\
  (forall q, keep_newest 0 q = q) /\
  (forall q rs s,
      loop_body 0 minS maxS (accumulating q rs) s =
      (b <- is_fixation_idt (buf_of (q ++ [s])) minS ;;
       Ok (if b then fixating (q ++ [s]) rs else accumulating (q ++ [s]) rs))).
Proof.
  split; [|split].
  - assert (H : exists st, loop 0 minS maxS init_state data = Ok st).
    { induction data as [|s pre IH] using rev_ind.
      - now exists init_state.
      - destruct IH as (st & E). rewrite loop_snoc, E. cbn [bind].
        eapply loop_body_total_zero, loop_shape; exact E. }
    destruct H as (st & E). exists (frame_of (fixations st)).
    now apply extract_fixations_rows.
  - intros [ts xs ys zs os]. unfold keep_newest. cbn [timestamps X_ Y_ Z_ origin].
    now rewrite !py_slice_from_zero.
  - intros q rs s. rewrite loop_body_accumulating.
    replace (Z.of_nat (length (q ++ [s])) >=? 0)%Z with true
      by (symmetry; rewrite Z.geb_leb; apply Z.leb_le; lia).
    cbn zeta. now rewrite py_slice_from_zero.
Qed.

End EdgeCounts.

(** ** Invariants of the loop *)

Section LoopInvariants.

Variable n : Z.
Variables minS maxS : Q.

(** A property of the rows read and the state holds after the loop when it
    holds of the initial state and each of the five cases keeps it. *)
Lemma loop_state_invariant (P : list Sample -> State -> Prop) :
  P [] init_state ->
  (forall pre st s st',
      loop n minS maxS init_state pre = Ok st ->
      P pre st ->
      step_case n minS maxS pre st s st' ->
      P (pre ++ [s]) st') ->
  forall data st,
    loop n minS maxS init_state data = Ok st -> P data st.
Proof.
  intros P0 Pstep data.
  induction data as [|s pre IH] using rev_ind; intros st Hrun.
  - injection Hrun as <-. exact P0.
  - rewrite loop_snoc in Hrun.
    destruct (loop n minS maxS init_state pre) as [st0|e] eqn:E;
      [|discriminate].
    cbn [bind] in Hrun.
    destruct (loop_body_cases _ _ _ _ _ _ _ (loop_shape _ _ _ _ _ E) Hrun)
      as (Hcase & _).
    eapply Pstep; eauto.
Qed.

Lemma in_sync_buf_of (w : list Sample) : in_sync (buf_of w).
Proof.
  unfold in_sync, buf_of. simpl. now rewrite !length_map.
Qed.

(** X8.  In every state the loop reaches, the five parallel lists of the
    queue have one length, and so have the five lists of the fixation: no
    list of a buffer runs ahead of the others. *)
Theorem parallel_lists_in_sync (pre : list Sample) (st : State) :
  loop n minS maxS init_state pre = Ok st ->
  in_sync (gaze_points_queue st) /\ in_sync (fixation st).
Proof.
  intros Hrun.
  destruct (loop_shape _ _ _ _ _ Hrun) as [q Hst _ _ | f o Hst _ _];
    rewrite Hst; cbn [accumulating fixating gaze_points_queue fixation];
    split; try apply in_sync_buf_of.
  apply (in_sync_buf_of []).
Qed.

Lemma loop_app (st : State) (pre rest : list Sample) :
  loop n minS maxS st (pre ++ rest)
  = (st' <- loop n minS maxS st pre ;; loop n minS maxS st' rest).
Proof.
  revert st. induction pre as [|a pre IH]; intros st; simpl.
  - reflexivity.
  - destruct (loop_body n minS maxS st a); simpl; auto.
Qed.

(** One iteration, from any state, keeps the rows recorded and adds at most
    one. *)
Lemma loop_body_rows_grow (st st' : State) (s : Sample) :
  loop_body n minS maxS st s = Ok st' ->
  exists more, fixations st' = fixations st ++ more /\ (length more <= 1)%nat.
Proof.
  assert (Hsame : forall rs : list Fix.t,
             exists more, rs = rs ++ more /\ (length more <= 1)%nat)
    by (intros rs; exists []; rewrite app_nil_r; simpl; auto).
  unfold loop_body. intros H.
  destruct (processing_fixation st); cbn [negb] in H.
  - destruct (is_fixation_idt _ maxS) as [[|]|e]; cbn [bind negb] in H;
      [| |discriminate].
    + injection H as <-. apply Hsame.
    + destruct (pop_outlier _) as [[f q]|e]; cbn [bind] in H; [|discriminate].
      destruct (save_fixation f) as [row|e]; cbn [bind] in H; [|discriminate].
      injection H as <-. exists [row]. auto.
  - destruct (_ >=? n)%Z.
    + destruct (is_fixation_idt _ minS) as [[|]|e]; cbn [bind] in H;
        [| |discriminate]; injection H as <-; apply Hsame.
    + injection H as <-. apply Hsame.
Qed.

Lemma loop_rows_grow (rest : list Sample) (st st' : State) :
  loop n minS maxS st rest = Ok st' ->
  exists more, fixations st' = fixations st ++ more /\
               (length more <= length rest)%nat.
Proof.
  revert st. induction rest as [|s rest IH]; intros st H; simpl in H.
  - injection H as <-. exists []. rewrite app_nil_r. auto.
  - destruct (loop_body n minS maxS st s) as [st1|e] eqn:E; [|discriminate].
    cbn [bind] in H.
    destruct (loop_body_rows_grow _ _ _ E) as (m1 & E1 & L1).
    destruct (IH _ H) as (m2 & E2 & L2).
    exists (m1 ++ m2). rewrite E2, E1, app_assoc. split; [reflexivity|].
    rewrite length_app. simpl. lia.
Qed.

(** X9.  Reading more input never changes the rows already produced: when
    [extract_fixations] returns on [pre ++ rest] it returns on [pre] as
    well, and the rows for [pre ++ rest] are the rows for [pre] followed by
    at most one further row per row of [rest]. *)
Theorem rows_of_prefix_are_kept (pre rest : list Sample) (df' : DataFrame) :
  extract_fixations n minS maxS (pre ++ rest) = Ok df' ->
  exists df more,
    extract_fixations n minS maxS pre = Ok df /\
    rows df' = rows df ++ more /\
    (length more <= length rest)%nat.
Proof.
  unfold extract_fixations. rewrite loop_app.
  destruct (loop n minS maxS init_state pre) as [st|e]; [|discriminate].
  cbn [bind].
  destruct (loop n minS maxS st rest) as [st'|e] eqn:E; [|discriminate].
  cbn [bind]. intros H. injection H as <-.
  destruct (loop_rows_grow _ _ _ E) as (more & Em & Lm).
  exists (frame_of (fixations st)), more. cbn [rows frame_of]. auto.
Qed.

End LoopInvariants.

(** ** How many rows, and when none *)

Section RowCount.

Variable n : Z.
Variables minS maxS : Q.

Lemma py_slice_from_length {A : Type} (k : Z) (l : list A) :
  (length (py_slice_from k l) <= length l)%nat.
Proof.
  unfold py_slice_from. rewrite length_skipn. lia.
Qed.

Lemma queue_of_accumulating (st : State) (q : list Sample) :
  st = accumulating q (fixations st) ->
  length (timestamps (gaze_points_queue st)) = length q.
Proof.
  intros ->. cbn [accumulating gaze_points_queue buf_of timestamps].
  apply length_map.
Qed.

Lemma queue_of_fixating (st : State) (w : list Sample) :
  st = fixating w (fixations st) ->
  length (timestamps (gaze_points_queue st)) = length w.
Proof.
  intros ->. cbn [fixating gaze_points_queue buf_of timestamps].
  apply length_map.
Qed.

(** Each row recorded has used up [n] rows of input, not counting the rows
    the current buffer holds; and the buffer is not empty once a row has
    been read. *)
Lemma rows_counted (data : list Sample) (st : State) :
  loop n minS maxS init_state data = Ok st ->
  (n * Z.of_nat (length (fixations st))
   + Z.of_nat (length (timestamps (gaze_points_queue st)))
   <= Z.of_nat (length data))%Z /\
  (data <> [] ->
   (1 <= length (timestamps (gaze_points_queue st)))%nat).
Proof.
  revert data st. apply loop_state_invariant.
  - split; [simpl; lia | congruence].
  - intros pre st s st' _ (IH & _) Hcase.
    assert (Hpre : length (pre ++ [s]) = S (length pre))
      by (rewrite length_app; simpl; lia).
    rewrite Hpre.
    destruct Hcase as [q Hst _ Hlen | q Hst _ Hlen Ht | q Hst _ Hlen Ht
                      | w Hst _ Hlen Ht | f o Hst _ Hlen Ht];
      cbn [accumulating fixating fixations gaze_points_queue buf_of timestamps];
      rewrite ?length_map.
    + rewrite (queue_of_accumulating _ _ Hst) in IH.
      rewrite ?length_app in *. cbn [length] in *. split; lia.
    + rewrite (queue_of_accumulating _ _ Hst) in IH.
      pose proof (py_slice_from_length (- n) (q ++ [s])) as Hs.
      destruct (tested_window_nonempty _ _ _ Ht) as (f & o & Ew).
      rewrite Ew in *. rewrite ?length_app in *. cbn [length] in *.
      split; lia.
    + rewrite (queue_of_accumulating _ _ Hst) in IH.
      pose proof (py_slice_from_length (- n) (q ++ [s])) as Hs.
      destruct (tested_window_nonempty _ _ _ Ht) as (f & o & Ew).
      rewrite Ew in *. rewrite ?length_app in *. cbn [length] in *.
      split; lia.
    + rewrite (queue_of_fixating _ _ Hst) in IH.
      rewrite ?length_app in *. cbn [length] in *. split; lia.
    + rewrite (queue_of_fixating _ _ Hst) in IH.
      rewrite ?length_app in *. cbn [length] in *. split; lia.
Qed.

(** X10.  On an input that has a row, the rows returned number fewer than
    the input rows divided by the count: [n * len(rows) + 1 <= len(data)].
    In particular an input of at most [n] rows gives no row when [n] is at
    least one. *)
Theorem rows_bounded_by_input (data : list Sample) (df : DataFrame) :
  extract_fixations n minS maxS data = Ok df ->
  data <> [] ->
  (n * Z.of_nat (length (rows df)) + 1 <= Z.of_nat (length data))%Z.
Proof.
  unfold extract_fixations. intros H Hne.
  destruct (loop n minS maxS init_state data) as [st|e] eqn:E; [|discriminate].
  injection H as <-. cbn [rows].
  destruct (rows_counted _ _ E) as (H1 & H2). specialize (H2 Hne). lia.
Qed.

(** X11.  When [min_fixation_size] is not positive no fixation ever starts:
    [extract_fixations] returns no row on any input (and with a count of at
    least one it does return). *)
Theorem nonpositive_min_size_no_rows (data : list Sample) :
  minS <= 0 ->
  (forall df, extract_fixations n minS maxS data = Ok df -> rows df = []) /\
  ((1 <= n)%Z -> exists df, extract_fixations n minS maxS data = Ok df).
Proof.
  intros Hmin. split.
  - intros df H. unfold extract_fixations in H.
    destruct (loop n minS maxS init_state data) as [st|e] eqn:E;
      [|discriminate].
    injection H as <-. cbn [rows].
    enough (Hinv : processing_fixation st = false /\ fixations st = [])
      by apply Hinv.
    revert E. revert data st. apply loop_state_invariant.
    + split; reflexivity.
    + intros pre st s st' _ (Hp & Hrows) Hcase.
      destruct Hcase as [q Hst _ Hlen | q Hst _ Hlen Ht | q Hst _ Hlen Ht
                        | w Hst _ Hlen Ht | f o Hst _ Hlen Ht];
        cbn [accumulating fixating fixations processing_fixation];
        try (split; [reflexivity | exact Hrows]).
      * exfalso. apply is_fixation_idt_true_iff in Ht as ((HX & _) & Hlt).
        pose proof (extent_nonneg _ HX). lra.
      * rewrite Hst in Hp. discriminate.
      * rewrite Hst in Hp. discriminate.
  - intros H1. destruct (loop_total n minS maxS data H1) as (st & E).
    exists (frame_of (fixations st)). now apply extract_fixations_rows.
Qed.

End RowCount.

(** ** What each output row stands for *)

Lemma run_extends (pre older : list Sample) (first : Sample)
      (others : list Sample) (s : Sample) :
  pre = older ++ first :: others ->
  pre ++ [s] = older ++ (first :: others) ++ s :: [].
Proof.
  intros ->. now rewrite <- app_assoc.
Qed.

Lemma run_stays (pre before w after : list Sample) (s : Sample) :
  pre = before ++ w ++ after ->
  pre ++ [s] = before ++ w ++ (after ++ [s]).
Proof.
  intros ->. now rewrite <- !app_assoc.
Qed.

Lemma test_true_extent (w : list Sample) (thr : Q) :
  is_fixation_idt (buf_of w) thr = Ok true -> extent (buf_of w) < thr.
Proof.
  intros H. now apply is_fixation_idt_true_iff in H.
Qed.

Section Runs.

Variable n : Z.
Variables minS maxS : Q.

Lemma bounded_run_stays (pre : list Sample) (s : Sample) (rs : list Fix.t) :
  Forall (bounded_run maxS pre) rs ->
  Forall (bounded_run maxS (pre ++ [s])) rs.
Proof.
  intros H. eapply Forall_impl; [|exact H].
  intros r (b & f & o & a & E & Hr & H1).
  exists b, f, o, (a ++ [s]). repeat split; auto.
  now apply run_stays.
Qed.

Lemma rows_bounded (data : list Sample) (st : State) :
  minS <= maxS ->
  loop n minS maxS init_state data = Ok st ->
  (processing_fixation st = true -> extent (fixation st) < maxS) /\
  Forall (bounded_run maxS data) (fixations st).
Proof.
  intros Hle. revert data st. apply loop_state_invariant.
  - split; [discriminate | constructor].
  - intros pre st s st' _ (Hin & Hrows) Hcase.
    destruct Hcase as [q Hst _ Hlen | q Hst _ Hlen Ht | q Hst _ Hlen Ht
                      | w Hst _ Hlen Ht | f o Hst (older & Hnew) Hlen Ht];
      cbn [accumulating fixating fixations processing_fixation fixation].
    + split; [discriminate | now apply bounded_run_stays].
    + split; [discriminate | now apply bounded_run_stays].
    + split; [|now apply bounded_run_stays].
      intros _. apply test_true_extent in Ht. lra.
    + split; [|now apply bounded_run_stays].
      intros _. now apply test_true_extent.
    + split; [discriminate|]. rewrite Forall_app.
      split; [now apply bounded_run_stays|].
      constructor; [|constructor].
      exists older, f, o, [s]. split; [now apply run_extends|].
      split; [reflexivity|].
      rewrite Hst in Hin. apply Hin. reflexivity.
Qed.

(** X12.  When [min_fixation_size <= max_fixation_size], every row returned
    summarises a run of consecutive input rows whose extent (the largest
    per-axis range of its direction values) is below
    [max_fixation_size]. *)
Theorem rows_within_max_size (data : list Sample) (df : DataFrame) :
  minS <= maxS ->
  extract_fixations n minS maxS data = Ok df ->
  Forall (bounded_run maxS data) (rows df).
Proof.
  intros Hle H. unfold extract_fixations in H.
  destruct (loop n minS maxS init_state data) as [st|e] eqn:E; [|discriminate].
  injection H as <-. cbn [rows]. now apply rows_bounded.
Qed.

End Runs.

(** The five lists determine the rows they were built from. *)
Lemma buf_of_inj (w w' : list Sample) : buf_of w = buf_of w' -> w = w'.
Proof.
  revert w'. induction w as [|a w IH]; intros [|a' w'] H;
    try reflexivity; try discriminate H.
  unfold buf_of in H. simpl in H.
  injection H as Ht Hts Hx Hxs Hy Hys Hz Hzs Hox Hoy Hoz Hos.
  f_equal.
  - destruct a, a'. simpl in *. subst. reflexivity.
  - apply IH. unfold buf_of. congruence.
Qed.

Section Seeds.

Variable n : Z.
Variables minS maxS : Q.

Lemma seeded_run_stays (pre : list Sample) (s : Sample) (rs : list Fix.t) :
  Forall (seeded_run n minS pre) rs ->
  Forall (seeded_run n minS (pre ++ [s])) rs.
Proof.
  intros H. eapply Forall_impl; [|exact H].
  intros r (b & f & o & a & E & Hr & H1).
  exists b, f, o, (a ++ [s]). repeat split; auto.
  now apply run_stays.
Qed.

Lemma firstn_snoc_full {A : Type} (k : nat) (l : list A) (a : A) :
  (k <= length l)%nat -> firstn k (l ++ [a]) = firstn k l.
Proof.
  intros Hk. rewrite firstn_app.
  replace (k - length l)%nat with 0%nat by lia.
  simpl. apply app_nil_r.
Qed.

Lemma rows_seeded (data : list Sample) (st : State) :
  (1 <= n)%Z ->
  loop n minS maxS init_state data = Ok st ->
  (processing_fixation st = true ->
   exists w, fixation st = buf_of w /\
             extent (buf_of (firstn (Z.to_nat n) w)) < minS) /\
  Forall (seeded_run n minS data) (fixations st).
Proof.
  intros H1. revert data st. apply loop_state_invariant.
  - split; [discriminate | constructor].
  - intros pre st s st' _ (Hin & Hrows) Hcase.
    destruct Hcase as [q Hst _ Hlen | q Hst _ Hlen Ht | q Hst _ Hlen Ht
                      | w Hst _ Hlen Ht | f o Hst (older & Hnew) Hlen Ht];
      cbn [accumulating fixating fixations processing_fixation fixation].
    + split; [discriminate | now apply seeded_run_stays].
    + split; [discriminate | now apply seeded_run_stays].
    + split; [|now apply seeded_run_stays].
      intros _. exists (py_slice_from (- n) (q ++ [s])).
      split; [reflexivity|].
      rewrite firstn_all2
        by (pose proof (py_slice_count n q s H1 Hlen); lia).
      now apply test_true_extent.
    + split; [|now apply seeded_run_stays].
      intros _. exists (w ++ [s]). split; [reflexivity|].
      destruct Hin as (w0 & E0 & Hseed); [now rewrite Hst|].
      rewrite Hst in E0. cbn [fixating fixation] in E0.
      apply buf_of_inj in E0 as <-.
      rewrite firstn_snoc_full by lia. exact Hseed.
    + split; [discriminate|]. rewrite Forall_app.
      split; [now apply seeded_run_stays|].
      constructor; [|constructor].
      destruct Hin as (w0 & E0 & Hseed); [now rewrite Hst|].
      rewrite Hst in E0. cbn [fixating fixation] in E0.
      apply buf_of_inj in E0 as <-.
      exists older, f, o, [s]. split; [now apply run_extends|].
      split; [reflexivity | exact Hseed].
Qed.

(** X13.  With a count of at least one, every row returned summarises a run
    of consecutive input rows whose first [n] rows have an extent below
    [min_fixation_size]: a fixation is reported only where the start test
    passed. *)
Theorem rows_start_within_min_size (data : list Sample) (df : DataFrame) :
  (1 <= n)%Z ->
  extract_fixations n minS maxS data = Ok df ->
  Forall (seeded_run n minS data) (rows df).
Proof.
  intros H1 H. unfold extract_fixations in H.
  destruct (loop n minS maxS init_state data) as [st|e] eqn:E; [|discriminate].
  injection H as <-. cbn [rows]. now apply rows_seeded.
Qed.

End Seeds.

(** ** Fixations do not overlap *)

Section NoOverlap.

Variable n : Z.
Variables minS maxS : Q.

Lemma in_slice {A : Type} (k : Z) (l : list A) (a : A) :
  In a (py_slice_from k l) -> In a l.
Proof.
  intros H. destruct (py_slice_from_newest k l) as (older & E).
  rewrite E. apply in_or_app. now right.
Qed.

Lemma in_last_of_run (first : Sample) (others : list Sample) :
  In (last (first :: others) first) (first :: others).
Proof.
  destruct (@exists_last _ (first :: others)) as (w & L & E); [discriminate|].
  rewrite E, last_last. apply in_or_app. right. now left.
Qed.

(** In sorted input, every row recorded ends no later than the row just
    read. *)
Lemma ends_before_new_row (pre : list Sample) (s : Sample) (rs : list Fix.t) :
  StronglySorted Qle (map timestamp (pre ++ [s])) ->
  Forall (well_timed pre) rs ->
  forall r, In r rs -> Fix.end_ r <= timestamp s.
Proof.
  intros Hs Hw r Hr. rewrite Forall_forall in Hw.
  destruct (Hw r Hr) as (_ & s' & Hin & ->).
  apply sorted_snoc_inv in Hs as (_ & Hall). rewrite Forall_forall in Hall.
  apply Hall. apply in_or_app. now left.
Qed.

Lemma rows_apart (data : list Sample) (st : State) :
  loop n minS maxS init_state data = Ok st ->
  StronglySorted Qle (map timestamp data) ->
  (forall r p, In r (fixations st) ->
               In (timestamp p) (timestamps (gaze_points_queue st)) ->
               Fix.end_ r <= timestamp p) /\
  StronglySorted end_before_start (fixations st).
Proof.
  revert data st.
  apply (loop_state_invariant n minS maxS
           (fun pre st =>
              StronglySorted Qle (map timestamp pre) ->
              (forall r p, In r (fixations st) ->
                           In (timestamp p) (timestamps (gaze_points_queue st)) ->
                           Fix.end_ r <= timestamp p) /\
              StronglySorted end_before_start (fixations st))).
  - intros _. split; [intros r p [] | constructor].
  - intros pre st s st' Hrun IH Hcase Hs.
    pose proof Hs as Hs'. apply sorted_snoc_inv in Hs' as (Hpre & Hall).
    destruct (IH Hpre) as (Hbuf & Hsorted). clear IH.
    destruct (rows_ordered_invariant n minS maxS _ _ Hrun Hpre) as (Hw & _).
    pose proof (ends_before_new_row _ _ _ Hs Hw) as Hnew.
    assert (Hstep : forall q q' : list Sample,
               timestamps (gaze_points_queue st) = map timestamp q ->
               incl q' (q ++ [s]) ->
               forall r p, In r (fixations st) ->
                           In (timestamp p) (map timestamp q') ->
                           Fix.end_ r <= timestamp p).
    { intros q q' Eq Hincl r p Hr Hp.
      apply in_map_iff in Hp as (p' & Ep & Hp'). rewrite <- Ep.
      apply Hincl, in_app_or in Hp' as [Hp' | [<- | []]]; [|now apply Hnew].
      apply Hbuf; [exact Hr|]. rewrite Eq. now apply in_map. }
    destruct Hcase as [q Hst _ Hlen | q Hst _ Hlen Ht | q Hst _ Hlen Ht
                      | w Hst _ Hlen Ht | f o Hst Hnewest Hlen Ht];
      cbn [accumulating fixating fixations gaze_points_queue buf_of timestamps].
    + split; [|exact Hsorted].
      apply (Hstep q); [now rewrite Hst | apply incl_refl].
    + split; [|exact Hsorted].
      apply (Hstep q); [now rewrite Hst | intros a; apply in_slice].
    + split; [|exact Hsorted].
      apply (Hstep q); [now rewrite Hst | intros a; apply in_slice].
    + split; [|exact Hsorted].
      apply (Hstep w); [now rewrite Hst | apply incl_refl].
    + assert (Hlast : Fix.end_ (summary f o) <= timestamp s).
      { cbn [summary Fix.end_]. rewrite Forall_forall in Hall.
        apply Hall. apply in_or_app. left.
        destruct Hnewest as (older & ->). apply in_or_app. right.
        apply in_last_of_run. }
      split.
      * intros r p Hr [Hp | []]. rewrite <- Hp.
        apply in_app_or in Hr as [Hr | [<- | []]]; [now apply Hnew | exact Hlast].
      * apply StronglySorted_snoc; [exact Hsorted|].
        apply Forall_forall. intros r Hr. unfold end_before_start.
        cbn [summary Fix.start]. apply Hbuf; [exact Hr|].
        rewrite Hst. cbn [fixating gaze_points_queue buf_of timestamps].
        simpl. now left.
Qed.

(** X14.  When the timestamps of the input are in non-decreasing order, the
    rows returned do not overlap in time: each row ends no later than every
    later row starts. *)
Theorem fixations_do_not_overlap (data : list Sample) (df : DataFrame) :
  nondecreasing (map timestamp data) ->
  extract_fixations n minS maxS data = Ok df ->
  StronglySorted (fun a b => Fix.end_ a <= Fix.start b) (rows df).
Proof.
  intros Hs H. unfold extract_fixations in H.
  destruct (loop n minS maxS init_state data) as [st|e] eqn:E; [|discriminate].
  injection H as <-. cbn [rows].
  apply Sorted_StronglySorted in Hs; [|intros a b c; apply Qle_trans].
  now destruct (rows_apart _ _ E Hs).
Qed.

End NoOverlap.

(** ** Timestamps and origins play no part in the segmentation *)

Lemma same_direction_axes (w w' : list Sample) :
  Forall2 same_direction w w' ->
  map direction_x w = map direction_x w' /\
  map direction_y w = map direction_y w' /\
  map direction_z w = map direction_z w'.
Proof.
  induction 1 as [|a a' w w' (Hx & Hy & Hz) _ (IHx & IHy & IHz)]; simpl.
  - auto.
  - rewrite Hx, Hy, Hz, IHx, IHy, IHz. auto.
Qed.

Lemma is_fixation_idt_same_direction (w w' : list Sample) (thr : Q) :
  Forall2 same_direction w w' ->
  is_fixation_idt (buf_of w) thr = is_fixation_idt (buf_of w') thr.
Proof.
  intros H. apply same_direction_axes in H as (Hx & Hy & Hz).
  unfold is_fixation_idt. cbn [buf_of X_ Y_ Z_]. now rewrite Hx, Hy, Hz.
Qed.

Lemma summary_same_direction (f f' : Sample) (o o' : list Sample) :
  Forall2 same_direction (f :: o) (f' :: o') ->
  same_mean_direction (summary f o) (summary f' o').
Proof.
  intros H. apply same_direction_axes in H as (Hx & Hy & Hz).
  unfold same_mean_direction, summary. cbn [Fix.x Fix.y Fix.z].
  now rewrite Hx, Hy, Hz.
Qed.

Lemma Forall2_skipn {A B : Type} (R : A -> B -> Prop) (k : nat)
      (l : list A) (l' : list B) :
  Forall2 R l l' -> Forall2 R (skipn k l) (skipn k l').
Proof.
  intros H. revert k. induction H; intros [|k]; simpl; auto.
Qed.

Lemma Forall2_slice {A B : Type} (R : A -> B -> Prop) (k : Z)
      (l : list A) (l' : list B) :
  Forall2 R l l' -> Forall2 R (py_slice_from k l) (py_slice_from k l').
Proof.
  intros H. unfold py_slice_from. rewrite <- (Forall2_length H).
  now apply Forall2_skipn.
Qed.

Section SameDirections.

Variable n : Z.
Variables minS maxS : Q.

Lemma loop_body_alike (st st' : State) (s s' : Sample) :
  alike st st' ->
  same_direction s s' ->
  alike_results (loop_body n minS maxS st s) (loop_body n minS maxS st' s').
Proof.
  intros [q q' rs rs' Hq Hrs | f f' o o' rs rs' Hw Hrs] Hs.
  - rewrite !loop_body_accumulating.
    assert (Hq1 : Forall2 same_direction (q ++ [s]) (q' ++ [s']))
      by (apply Forall2_app; [exact Hq | now constructor]).
    rewrite <- (Forall2_length Hq1).
    destruct (_ >=? n)%Z.
    + cbn zeta. pose proof (Forall2_slice _ (- n) _ _ Hq1) as Hq2.
      rewrite <- (is_fixation_idt_same_direction _ _ minS Hq2).
      destruct (is_fixation_idt _ minS) as [[|]|e] eqn:E; cbn.
      * destruct (tested_window_nonempty _ _ _ E) as (a & w & Ew).
        rewrite Ew in *.
        destruct (py_slice_from (- n) (q' ++ [s'])) as [|a' w'];
          [inversion Hq2|]. now constructor.
      * now constructor.
      * reflexivity.
    + cbn. now constructor.
  - rewrite !loop_body_fixating.
    assert (Hw1 : Forall2 same_direction ((f :: o) ++ [s]) ((f' :: o') ++ [s']))
      by (apply Forall2_app; [exact Hw | now constructor]).
    rewrite <- (is_fixation_idt_same_direction _ _ maxS Hw1).
    destruct (is_fixation_idt _ maxS) as [[|]|e]; cbn.
    + now constructor.
    + apply alike_accumulating; [constructor; [exact Hs | constructor]|].
      apply Forall2_app; [exact Hrs|].
      constructor; [now apply summary_same_direction | constructor].
    + reflexivity.
Qed.

Lemma loop_alike (data data' : list Sample) :
  Forall2 same_direction data data' ->
  forall st st',
    alike st st' ->
    alike_results (loop n minS maxS st data) (loop n minS maxS st' data').
Proof.
  induction 1 as [|s s' data data' Hs _ IH]; intros st st' Hst.
  - exact Hst.
  - cbn [loop]. pose proof (loop_body_alike _ _ _ _ Hst Hs) as Hb.
    destruct (loop_body n minS maxS st s) as [st1|e],
             (loop_body n minS maxS st' s') as [st1'|e'];
      cbn in Hb |- *; try contradiction; auto.
Qed.

Lemma alike_rows (st st' : State) :
  alike st st' -> Forall2 same_mean_direction (fixations st) (fixations st').
Proof.
  now intros [q q' rs rs' _ Hrs | f f' o o' rs rs' _ Hrs].
Qed.

(** X16.  The segmentation looks at directions only.  Two inputs that agree
    row by row on the three direction components, whatever their
    timestamps and origins, either make [extract_fixations] raise the same
    exception or give frames with the same number of rows and, row by row,
    the same [x], [y] and [z]. *)
Theorem segmentation_ignores_time_and_origin (data data' : list Sample) :
  Forall2 same_direction data data' ->
  match extract_fixations n minS maxS data,
        extract_fixations n minS maxS data' with
  | Ok df, Ok df' =>
      columns df = columns df' /\
      Forall2 same_mean_direction (rows df) (rows df')
  | Raise e, Raise e' => e = e'
  | _, _ => False
  end.
Proof.
  intros H. unfold extract_fixations.
  assert (H0 : alike init_state init_state)
    by (apply (alike_accumulating [] [] [] []); constructor).
  pose proof (loop_alike _ _ H _ _ H0) as Hr.
  destruct (loop n minS maxS init_state data) as [st|e],
           (loop n minS maxS init_state data') as [st'|e'];
    cbn in Hr |- *; try contradiction; auto.
  split; [reflexivity | now apply alike_rows].
Qed.

End SameDirections.

End Model.

(** * The properties on concrete inputs

    The examples run with [exact_mean] for [np.mean]. *)



(** With a NaN the answer of the binary64 test depends on where it sits:
    after a number it is skipped by [max] and [min], alone or first it makes
    the range NaN, which is below no threshold. *)
Example nan_window_depends_on_position :
  let after := [PrimFloat.zero; PrimFloat.nan] in
  let first := [PrimFloat.nan; PrimFloat.zero] in
  let alone := [PrimFloat.nan] in
  is_fixation_idt_f64 (mkAxes64 after after after) f64_0047 = Ok true /\
  is_fixation_idt_f64 (mkAxes64 first first first) f64_0047 = Ok false /\
  is_fixation_idt_f64 (mkAxes64 alone alone alone) f64_0047 = Ok false.
Proof. cbv zeta. repeat split; vm_compute; reflexivity. Qed.

(** The same with the rounding to thousandths: a range of 0.0466 rounds up
    to the threshold 0.047, and the rounded test answers false. *)
Example rounded_test_misses_a_close_window :
  let w := buf_of [sample_at 1 0; sample_at 2 (466 # 10000)] in
  is_fixation_idt_rounded (round_to_grid 1000) w (47 # 1000) = Ok false /\
  extent w < 47 # 1000.
Proof. split; vm_compute; reflexivity. Qed.



Lemma outlier_reseeds_queue_witness :
  exists w r st',
    fixation (fixating [sample_at 1 0; sample_at 2 0] []) = buf_of w /\
    pop_outlier
      (append_sample (fixation (fixating [sample_at 1 0; sample_at 2 0] []))
                     (sample_at 3 10))
      = Ok (buf_of w, buf_of [sample_at 3 10]) /\
    save_fixation exact_mean (buf_of w) = Ok r /\
    loop_body exact_mean 2 (1 # 100) (95 # 1000)
              (fixating [sample_at 1 0; sample_at 2 0] []) (sample_at 3 10)
      = Ok st' /\
    fixations st' = [] ++ [r] /\
    gaze_points_queue st' =
      mkBuf [timestamp (sample_at 3 10)] [direction_x (sample_at 3 10)]
            [direction_y (sample_at 3 10)] [direction_z (sample_at 3 10)]
            [gaze_origin (sample_at 3 10)] /\
    fixation st' = empty_buf /\
    processing_fixation st' = false.
Proof.
  apply (outlier_reseeds_queue exact_mean 2 (1 # 100) (95 # 1000)
           [sample_at 1 0; sample_at 2 0]
           (fixating [sample_at 1 0; sample_at 2 0] [])
           (sample_at 3 10)); reflexivity.
Defined.

Lemma end_of_stream_discard_witness :
  extract_fixations exact_mean 2 (1 # 100) (95 # 1000)
                    [sample_at 1 0; sample_at 2 0]
    = Ok (frame_of []) /\
  (forall st',
      loop exact_mean 2 (1 # 100) (95 # 1000) init_state
           ([sample_at 1 0; sample_at 2 0] ++ [sample_at 3 0]) = Ok st' ->
      fixations st' = [] /\
      extract_fixations exact_mean 2 (1 # 100) (95 # 1000)
                        ([sample_at 1 0; sample_at 2 0] ++ [sample_at 3 0])
        = Ok (frame_of [])) /\
  ((1 <= 2)%Z ->
   exists st',
     loop exact_mean 2 (1 # 100) (95 # 1000) init_state
          ([sample_at 1 0; sample_at 2 0] ++ [sample_at 3 0]) = Ok st').
Proof.
  apply (end_of_stream_discard exact_mean 2 (1 # 100) (95 # 1000)
           [sample_at 1 0; sample_at 2 0]
           (fixating [sample_at 1 0; sample_at 2 0] [])
           (sample_at 3 0)).
  - reflexivity.
  - right. reflexivity.
Defined.

Lemma queue_cap_witness :
  exists q,
    gaze_points_queue (accumulating [sample_at 1 0; sample_at 2 5] [])
      = buf_of q /\
    newest_of q [sample_at 1 0; sample_at 2 5] /\
    (Z.of_nat (length q) <= 2)%Z /\
    forall s,
      ((Z.of_nat
          (length
             (timestamps
                (append_sample
                   (gaze_points_queue
                      (accumulating [sample_at 1 0; sample_at 2 5] []))
                   s))) < 2)%Z ->
       loop_body exact_mean 2 (1 # 100) (95 # 1000)
                 (accumulating [sample_at 1 0; sample_at 2 5] []) s
       = Ok (accumulating (q ++ [s])
               (fixations (accumulating [sample_at 1 0; sample_at 2 5] []))))
      /\
      ((2 <= Z.of_nat
               (length
                  (timestamps
                     (append_sample
                        (gaze_points_queue
                           (accumulating [sample_at 1 0; sample_at 2 5] []))
                        s))))%Z ->
       exists w,
         keep_newest 2
           (append_sample
              (gaze_points_queue
                 (accumulating [sample_at 1 0; sample_at 2 5] [])) s)
           = buf_of w /\
         newest_of w ([sample_at 1 0; sample_at 2 5] ++ [s]) /\
         Z.of_nat (length w) = 2%Z /\
         loop_body exact_mean 2 (1 # 100) (95 # 1000)
                   (accumulating [sample_at 1 0; sample_at 2 5] []) s
         = (b <- is_fixation_idt (buf_of w) (1 # 100) ;;
            Ok (if b
                then fixating w
                       (fixations
                          (accumulating [sample_at 1 0; sample_at 2 5] []))
                else accumulating w
                       (fixations
                          (accumulating [sample_at 1 0; sample_at 2 5] []))))).
Proof.
  apply (queue_cap exact_mean 2 (1 # 100) (95 # 1000)
           [sample_at 1 0; sample_at 2 5]
           (accumulating [sample_at 1 0; sample_at 2 5] [])).
  - lia.
  - reflexivity.
  - reflexivity.
Defined.

Lemma rows_ordered_witness :
  ((1 <= 2)%Z ->
   exists df,
     extract_fixations exact_mean 2 (1 # 100) (95 # 1000)
       [sample_at 1 0; sample_at 2 0; sample_at 3 10] = Ok df) /\
  forall df,
    extract_fixations exact_mean 2 (1 # 100) (95 # 1000)
      [sample_at 1 0; sample_at 2 0; sample_at 3 10] = Ok df ->
    Forall (fun r => Fix.start r <= Fix.end_ r) (rows df) /\
    StronglySorted (fun a b => Fix.end_ a <= Fix.end_ b) (rows df).
Proof.
  apply (rows_ordered exact_mean 2 (1 # 100) (95 # 1000)
           [sample_at 1 0; sample_at 2 0; sample_at 3 10]).
  unfold nondecreasing. simpl.
  repeat constructor; unfold Qle; simpl; lia.
Defined.

Lemma extract_fixations_never_raises_witness :
  exists df,
    extract_fixations exact_mean 2 (1 # 100) (95 # 1000)
      [sample_at 1 0; sample_at 2 0; sample_at 3 10] = Ok df.
Proof.
  apply (extract_fixations_never_raises exact_mean 2 (1 # 100) (95 # 1000)
           [sample_at 1 0; sample_at 2 0; sample_at 3 10]).
  lia.
Defined.

Lemma every_row_summarises_enough_witness :
  exists df,
    extract_fixations exact_mean 2 (1 # 100) (95 # 1000)
      [sample_at 1 0; sample_at 2 0; sample_at 3 10] = Ok df /\
    Forall (summarises exact_mean 2 (95 # 1000)
              [sample_at 1 0; sample_at 2 0; sample_at 3 10]) (rows df).
Proof.
  apply (every_row_summarises_enough exact_mean 2 (1 # 100) (95 # 1000)
           [sample_at 1 0; sample_at 2 0; sample_at 3 10]).
  lia.
Defined.

Lemma no_start_no_rows_witness :
  exists df,
    extract_fixations exact_mean 2 (47 # 1000) (95 # 1000)
      [sample_at 1 0; sample_at 2 10; sample_at 3 20] = Ok df /\
    rows df = [].
Proof.
  apply (no_start_no_rows exact_mean 2 (47 # 1000) (95 # 1000)
           [sample_at 1 0; sample_at 2 10; sample_at 3 20]).
  - lia.
  - intros before w after E Hlen.
    destruct w as [|a [|b [|c w]]]; simpl in Hlen; try lia.
    destruct before as [|b0 [|b1 [|b2 before]]]; simpl in E.
    + injection E as <- <- _. vm_compute. discriminate.
    + injection E as _ <- <- _. vm_compute. discriminate.
    + destruct after; discriminate E.
    + destruct before; discriminate E.
Defined.

(** Three rows with the same direction and a count of two: the fixation
    that starts at the second row is still open at the end, and no row is
    returned. *)
Example scenario_open_fixation :
  loop exact_mean 2 (1 # 100) default_max_fixation_size init_state
       [sample_at 1 0; sample_at 2 0; sample_at 3 0]
  = Ok (fixating [sample_at 1 0; sample_at 2 0; sample_at 3 0] []) /\
  extract_fixations exact_mean 2 (1 # 100) default_max_fixation_size
       [sample_at 1 0; sample_at 2 0; sample_at 3 0]
  = Ok (frame_of []).
Proof. split; reflexivity. Qed.

(** Two rows close together, then a far one, under the default parameters:
    one output row over the first two, and the far row alone in the
    queue. *)
Example scenario_one_fixation :
  loop exact_mean default_min_points_per_fixation default_min_fixation_size
       default_max_fixation_size init_state
       [sample_at 1 0; sample_at 2 0; sample_at 3 10]
  = Ok (accumulating [sample_at 3 10]
          [Fix.mk 1 2 (0 # 2) (2 # 2) (0 # 2) (2 # 2) (4 # 2) (6 # 2)]).
Proof. reflexivity. Qed.

(** A count of one: a single row starts a fixation at once. *)
Example scenario_count_of_one :
  loop exact_mean 1 default_min_fixation_size default_max_fixation_size
       init_state [sample_at 1 0]
  = Ok (fixating [sample_at 1 0] []).
Proof. reflexivity. Qed.

(** While a fixation is in progress the queue shares its lists, and so
    outgrows the count. *)
Example queue_shared_while_fixating :
  exists st,
    loop exact_mean 2 (1 # 100) default_max_fixation_size init_state
         [sample_at 1 0; sample_at 2 0; sample_at 3 0] = Ok st /\
    processing_fixation st = true /\
    length (timestamps (gaze_points_queue st)) = 3%nat.
Proof. eexists. repeat split. Qed.

(** A negative count makes the first iteration call the test on an empty
    window. *)
Example negative_count_raises :
  extract_fixations exact_mean (-1) default_min_fixation_size
                    default_max_fixation_size [sample_at 1 0]
  = Raise ValueError.
Proof. reflexivity. Qed.

Lemma is_fixation_idt_threshold_monotone_witness :
  is_fixation_idt (buf_of [sample_at 1 0; sample_at 2 (1 # 50)])
                  default_max_fixation_size = Ok true.
Proof.
  apply (is_fixation_idt_threshold_monotone
           (buf_of [sample_at 1 0; sample_at 2 (1 # 50)])
           default_min_fixation_size default_max_fixation_size).
  - reflexivity.
  - vm_compute. discriminate.
Defined.

Lemma is_fixation_idt_subwindow_witness :
  is_fixation_idt (buf_of [sample_at 2 (1 # 50)]) default_max_fixation_size
  = Ok true.
Proof.
  apply (is_fixation_idt_subwindow
           (buf_of [sample_at 2 (1 # 50)])
           (buf_of [sample_at 1 0; sample_at 2 (1 # 50)])
           default_max_fixation_size);
    try (simpl; discriminate);
    try (intros a [<- | []]; simpl; auto).
  reflexivity.
Defined.

Lemma is_fixation_idt_nonpositive_threshold_witness :
  is_fixation_idt (buf_of [sample_at 1 0]) 0 <> Ok true.
Proof.
  apply (is_fixation_idt_nonpositive_threshold (buf_of [sample_at 1 0]) 0).
  vm_compute. discriminate.
Defined.

Lemma count_one_starts_at_once_witness :
  loop_body exact_mean 1 default_min_fixation_size default_max_fixation_size
            (accumulating [sample_at 3 10] []) (sample_at 4 20)
  = Ok (fixating [sample_at 4 20] []).
Proof.
  apply (count_one_starts_at_once exact_mean default_min_fixation_size
           default_max_fixation_size [sample_at 3 10] [] (sample_at 4 20)).
  vm_compute. reflexivity.
Defined.

Lemma negative_count_raises_on_rows_witness :
  extract_fixations exact_mean (-2) default_min_fixation_size
                    default_max_fixation_size
                    (sample_at 1 0 :: [sample_at 2 0])
  = Raise ValueError.
Proof.
  apply (negative_count_raises_on_rows exact_mean default_min_fixation_size
           default_max_fixation_size (-2) (sample_at 1 0) [sample_at 2 0]).
  lia.
Defined.

Lemma rows_of_prefix_are_kept_witness :
  exists df more,
    extract_fixations exact_mean 2 (1 # 100) (95 # 1000)
      [sample_at 1 0; sample_at 2 0; sample_at 3 10] = Ok df /\
    rows (frame_of
            [Fix.mk 1 2 (0 # 2) (2 # 2) (0 # 2) (2 # 2) (4 # 2) (6 # 2)])
      = rows df ++ more /\
    (length more <= length [sample_at 4 10; sample_at 5 10])%nat.
Proof.
  apply (rows_of_prefix_are_kept exact_mean 2 (1 # 100) (95 # 1000)
           [sample_at 1 0; sample_at 2 0; sample_at 3 10]
           [sample_at 4 10; sample_at 5 10]).
  reflexivity.
Defined.

Lemma parallel_lists_in_sync_witness :
  in_sync (gaze_points_queue
             (accumulating [sample_at 3 10]
                [Fix.mk 1 2 (0 # 2) (2 # 2) (0 # 2) (2 # 2) (4 # 2) (6 # 2)]))
  /\
  in_sync (fixation
             (accumulating [sample_at 3 10]
                [Fix.mk 1 2 (0 # 2) (2 # 2) (0 # 2) (2 # 2) (4 # 2) (6 # 2)])).
Proof.
  apply (parallel_lists_in_sync exact_mean 2 (1 # 100) (95 # 1000)
           [sample_at 1 0; sample_at 2 0; sample_at 3 10]).
  reflexivity.
Defined.

Lemma rows_bounded_by_input_witness :
  (2 * Z.of_nat
         (length
            (rows (frame_of
               [Fix.mk 1 2 (0 # 2) (2 # 2) (0 # 2) (2 # 2) (4 # 2) (6 # 2)])))
   + 1
   <= Z.of_nat (length [sample_at 1 0; sample_at 2 0; sample_at 3 10]))%Z.
Proof.
  apply (rows_bounded_by_input exact_mean 2 (1 # 100) (95 # 1000)
           [sample_at 1 0; sample_at 2 0; sample_at 3 10]).
  - reflexivity.
  - discriminate.
Defined.

Lemma nonpositive_min_size_no_rows_witness :
  (forall df,
      extract_fixations exact_mean 2 0 (95 # 1000)
        [sample_at 1 0; sample_at 2 0; sample_at 3 10] = Ok df ->
      rows df = []) /\
  ((1 <= 2)%Z ->
   exists df,
     extract_fixations exact_mean 2 0 (95 # 1000)
       [sample_at 1 0; sample_at 2 0; sample_at 3 10] = Ok df).
Proof.
  apply (nonpositive_min_size_no_rows exact_mean 2 0 (95 # 1000)
           [sample_at 1 0; sample_at 2 0; sample_at 3 10]).
  vm_compute. discriminate.
Defined.

Lemma rows_within_max_size_witness :
  Forall (bounded_run exact_mean default_max_fixation_size
            [sample_at 1 0; sample_at 2 0; sample_at 3 10])
         (rows (frame_of
            [Fix.mk 1 2 (0 # 2) (2 # 2) (0 # 2) (2 # 2) (4 # 2) (6 # 2)])).
Proof.
  apply (rows_within_max_size exact_mean default_min_points_per_fixation
           default_min_fixation_size default_max_fixation_size
           [sample_at 1 0; sample_at 2 0; sample_at 3 10]).
  - vm_compute. discriminate.
  - reflexivity.
Defined.

Lemma rows_start_within_min_size_witness :
  Forall (seeded_run exact_mean 2 default_min_fixation_size
            [sample_at 1 0; sample_at 2 0; sample_at 3 (1 # 20);
             sample_at 4 10])
         (rows (frame_of
            [Fix.mk 1 3 ((0 + 0 + 0 + (1 # 20)) / inject_Z 3)
                        ((0 + (0 + 1) + (0 + 1) + ((1 # 20) + 1)) / inject_Z 3)
                        ((0 + - 0 + - 0 + - (1 # 20)) / inject_Z 3)
                        ((0 + 1 + 1 + 1) / inject_Z 3)
                        ((0 + 2 + 2 + 2) / inject_Z 3)
                        ((0 + 3 + 3 + 3) / inject_Z 3)])).
Proof.
  apply (rows_start_within_min_size exact_mean 2 default_min_fixation_size
           default_max_fixation_size
           [sample_at 1 0; sample_at 2 0; sample_at 3 (1 # 20);
            sample_at 4 10]).
  - lia.
  - vm_compute. reflexivity.
Defined.

Lemma fixations_do_not_overlap_witness :
  StronglySorted (fun a b => Fix.end_ a <= Fix.start b)
    (rows (frame_of
       [Fix.mk 1 1 0 (0 + 1) (- 0) 1 2 3;
        Fix.mk 3 4 ((0 + 10 + 10) / inject_Z 2)
                   ((0 + (10 + 1) + (10 + 1)) / inject_Z 2)
                   ((0 + - 10 + - 10) / inject_Z 2)
                   ((0 + 1 + 1) / inject_Z 2)
                   ((0 + 2 + 2) / inject_Z 2)
                   ((0 + 3 + 3) / inject_Z 2)])).
Proof.
  apply (fixations_do_not_overlap exact_mean 1 (1 # 100) (95 # 1000)
           [sample_at 1 0; sample_at 2 1; sample_at 3 10; sample_at 4 10;
            sample_at 5 11]).
  - unfold nondecreasing. simpl.
    repeat constructor; unfold Qle; simpl; lia.
  - vm_compute. reflexivity.
Defined.

Lemma segmentation_ignores_time_and_origin_witness :
  match extract_fixations exact_mean 2 (1 # 100) (95 # 1000)
          [sample_at 1 0; sample_at 2 0; sample_at 3 10],
        extract_fixations exact_mean 2 (1 # 100) (95 # 1000)
          [mkSample 7 0 (0 + 1) (- 0) 0 0 0;
           mkSample 7 0 (0 + 1) (- 0) 5 5 5;
           mkSample 3 10 (10 + 1) (- 10) 0 0 0] with
  | Ok df, Ok df' =>
      columns df = columns df' /\
      Forall2 same_mean_direction (rows df) (rows df')
  | Raise e, Raise e' => e = e'
  | _, _ => False
  end.
Proof.
  apply (segmentation_ignores_time_and_origin exact_mean 2 (1 # 100)
           (95 # 1000)
           [sample_at 1 0; sample_at 2 0; sample_at 3 10]
           [mkSample 7 0 (0 + 1) (- 0) 0 0 0;
            mkSample 7 0 (0 + 1) (- 0) 5 5 5;
            mkSample 3 10 (10 + 1) (- 10) 0 0 0]).
  repeat constructor.
Defined.
